(** * Naiver-Strokes-Audit.py: the Harding-Yang-Mills "verification" script

    A shallow embedding of [src/Naiver-Strokes-Audit.py].

    - Python [float] and [numpy.float64] values are IEEE 754 binary64 numbers,
      modelled by the Standard Library's bit-level specification [spec_float]
      at precision 53 and maximal exponent 1024.  Every arithmetic operation
      of the script is the correctly rounded one of that specification.
    - What the script takes from numerical libraries whose results are not
      fixed by a standard (libm's [pow], numpy's [sin] and [cos], scipy's
      [dblquad]) is a field of the record [Runtime]; theorems quantify over it.
    - What is fixed by a standard is implemented: decimal literals, the
      [format] mini-language for floats, UTF-8 text and SHA-256.
    - The field function is written once over an arithmetic interface and read
      twice: in binary64 (what runs) and in the real numbers (what the
      quadrature approximates). *)

From Stdlib Require Import ZArith QArith Bool List String Ascii Lia.
From Stdlib Require Import SpecFloat.
From Stdlib Require Import Reals Lra Qreals.
Import ListNotations.

(* ================================================================== *)
(** ** IEEE 754 binary64 *)
(* ================================================================== *)

Module B64.

Definition prec : Z := 53.
Definition emax : Z := 1024.

Definition float : Type := spec_float.

Definition add : float -> float -> float := SFadd prec emax.
Definition mul : float -> float -> float := SFmul prec emax.
Definition div : float -> float -> float := SFdiv prec emax.
Definition sqrt : float -> float := SFsqrt prec emax.
Definition opp : float -> float := SFopp.

Definition ltb : float -> float -> bool := SFltb.
Definition leb : float -> float -> bool := SFleb.
Definition eqb : float -> float -> bool := SFeqb.

Definition is_nan (x : float) : bool :=
  match x with S754_nan => true | _ => false end.

Definition is_inf (x : float) : bool :=
  match x with S754_infinity _ => true | _ => false end.

Definition is_finite (x : float) : bool :=
  match x with S754_zero _ | S754_finite _ _ _ => true | _ => false end.

(** The value of a decimal literal: the binary64 number nearest to the
    rational it denotes, ties to even.  The quotient of the two integers is
    rounded once, by the division of the specification. *)
Definition of_Q (q : Q) : float :=
  match Qnum q with
  | Z0 => S754_zero false
  | Zpos n => div (S754_finite false n 0) (S754_finite false (Qden q) 0)
  | Zneg n => div (S754_finite true n 0) (S754_finite false (Qden q) 0)
  end.

(** The real number a binary64 value stands for (0 for infinities and
    NaN, which a caller excludes with [is_finite]). *)
Definition to_R (x : float) : R :=
  match x with
  | S754_finite s m e =>
      match e with
      | Zneg k => IZR (cond_Zopp s (Zpos m)) / IZR (2 ^ Zpos k)
      | _ => IZR (cond_Zopp s (Zpos m) * 2 ^ e)
      end
  | _ => 0%R
  end.

End B64.

Abbreviation float := B64.float.

(** The float a numeric literal of the script denotes (an [int] operand of a
    float operation is converted first, exactly for the small ones here). *)
Definition num (q : Q) : float := B64.of_Q q.

Declare Scope py_scope.
Delimit Scope py_scope with py.
Bind Scope py_scope with B64.float.

Notation "x + y" := (B64.add x y) : py_scope.
Notation "x * y" := (B64.mul x y) : py_scope.
Notation "x / y" := (B64.div x y) : py_scope.
Notation "- x" := (B64.opp x) : py_scope.
Notation "x <? y" := (B64.ltb x y) : py_scope.
Notation "x <=? y" := (B64.leb x y) : py_scope.
Notation "x >? y" := (B64.ltb y x) (at level 70) : py_scope.

(* ================================================================== *)
(** ** The arithmetic the field function uses *)
(* ================================================================== *)

(** [topological_density_theta_A] uses literals, [+], [*], [np.sin],
    [np.cos] and [np.pi] and nothing else. *)
Class Arith (F : Type) : Type := {
  lit : Q -> F;
  plus : F -> F -> F;
  times : F -> F -> F;
  np_sin : F -> F;
  np_cos : F -> F;
  np_pi : F
}.

Declare Scope num_scope.
Delimit Scope num_scope with num.
Notation "x + y" := (plus x y) : num_scope.
Notation "x * y" := (times x y) : num_scope.

(** The external numerical routines of a run. *)
Record Runtime : Type := {
  (** C [pow], reached by [float ** float] once CPython's special cases are
      dealt with. *)
  libm_pow : float -> float -> float;
  (** [numpy.sin] and [numpy.cos] on a float64 scalar. *)
  libm_sin : float -> float;
  libm_cos : float -> float;
  (** [scipy.integrate.dblquad(func, a, b, gfun, hfun)]: the pair of the
      value and of the error estimate. *)
  dblquad : (float -> float -> float) -> float -> float -> float -> float
            -> float * float
}.

#[export] Instance binary64_arith (rt : Runtime) : Arith float := {
  lit := B64.of_Q;
  plus := B64.add;
  times := B64.mul;
  np_sin := libm_sin rt;
  np_cos := libm_cos rt;
  np_pi := B64.of_Q 3.141592653589793
}.

#[export] Instance real_arith : Arith R := {
  lit := Q2R;
  plus := Rplus;
  times := Rmult;
  np_sin := sin;
  np_cos := cos;
  np_pi := PI
}.

Section FieldFunction.
Context {F : Type} {A : Arith F}.
Local Open Scope num_scope.

(** [def topological_density_theta_A(self, x, y)] *)
Definition topological_density_theta_A (x y : F) : F :=
  let F_norm_sq := lit 1.0 + lit 0.1 * np_sin (lit 2 * np_pi * (x + y)) in
  let winding := lit 0.05 * np_cos (lit 4 * np_pi * x) * np_sin (lit 4 * np_pi * y) in
  F_norm_sq + winding.

End FieldFunction.

(* ================================================================== *)
(** ** Python: exceptions and standard output *)
(* ================================================================== *)

(** The only operator of the script that can raise is [float ** float].
    [ComplexResult] is not an exception of Python: a negative base with a
    fractional exponent gives a [complex], which leaves the floats of this
    model; no base of the script is negative. *)
Inductive exception : Type :=
| OverflowError
| ZeroDivisionError
| ComplexResult.

(** The checks whose outcome selects the text that is printed. *)
Inductive check : Type :=
| DampingInequality
| Constraint
| MassGapPositivity
| SobolevBound.

(** Standard output, reduced to the lines that depend on a check: the check
    and its outcome ([true] prints [VERIFIED], or [True] for [Constraint]). *)
Definition stdout : Type := list (check * bool).

(** A computation returns a value or raises, and has printed some lines
    by then. *)
Definition Py (A : Type) : Type := (exception + A) * stdout.

Definition ret {A : Type} (a : A) : Py A := (inr a, []).

Definition raise {A : Type} (e : exception) : Py A := (inl e, []).

Definition bind {A B : Type} (c : Py A) (k : A -> Py B) : Py B :=
  match c with
  | (inl e, out) => (inl e, out)
  | (inr a, out) => let (r, out') := k a in (r, out ++ out')
  end.

Definition print (c : check) (b : bool) : Py unit := (inr tt, [(c, b)]).

Declare Scope py_monad_scope.
Delimit Scope py_monad_scope with pym.
Notation "x <- c ;; k" := (bind c (fun x => k))
  (at level 61, c at next level, right associativity) : py_monad_scope.
Notation "c ;; k" := (bind c (fun _ => k))
  (at level 61, right associativity) : py_monad_scope.

(** Exit status of the interpreter: 1 after an uncaught exception. *)
Definition exit_code {A : Type} (c : Py A) : Z :=
  match fst c with
  | inl _ => 1
  | inr _ => 0
  end.

(* ================================================================== *)
(** ** Python: [float ** float] *)
(* ================================================================== *)

Section Pow.
Variable rt : Runtime.
Local Open Scope py_scope.

Definition is_odd_integer (x : float) : bool :=
  match x with
  | S754_finite _ m e =>
      match e with
      | Z0 => Z.odd (Zpos m)
      | Zpos _ => false
      | Zneg k => Z.eqb (Z.land (Zpos m) (Z.ones (Zpos k + 1))) (2 ^ Zpos k)
      end
  | _ => false
  end.

Definition is_integer (x : float) : bool :=
  match x with
  | S754_zero _ => true
  | S754_finite _ m e =>
      match e with
      | Zneg k => Z.eqb (Z.land (Zpos m) (Z.ones (Zpos k))) 0
      | _ => true
      end
  | _ => false
  end.

(** CPython's [float_pow], case by case in its order; the C library is
    called last, on a finite positive base other than 1 and a finite
    non-zero exponent.  [errno] is read off the result: a range error is an
    infinite result, and it is raised as [OverflowError]. *)
Definition float_pow (v w : float) : Py float :=
  let one := B64.of_Q 1 in
  let zero := S754_zero false in
  if B64.eqb w zero then ret one
  else if B64.is_nan v then ret v
  else if B64.is_nan w then ret (if B64.eqb v one then one else w)
  else if B64.is_inf w then
    let av := SFabs v in
    if B64.eqb av one then ret one
    else if Bool.eqb (zero <? w) (one <? av) then ret (SFabs w)
    else ret zero
  else if B64.is_inf v then
    let odd := is_odd_integer w in
    if zero <? w then ret (if odd then v else SFabs v)
    else ret (if odd then (if v <? zero then S754_zero true else zero) else zero)
  else if B64.eqb v zero then
    if w <? zero then raise ZeroDivisionError
    else ret (if is_odd_integer w then v else zero)
  else if (v <? zero) && negb (is_integer w) then raise ComplexResult
  else
    let negate := (v <? zero) && is_odd_integer w in
    let av := SFabs v in
    if B64.eqb av one then ret (if negate then - one else one)
    else
      let ix := libm_pow rt av w in
      if B64.is_inf ix then raise OverflowError
      else ret (if negate then - ix else ix).

End Pow.

(* ================================================================== *)
(** ** Python: formatting a float ([format(x, ".2e")], [".6f"], [".2f"]) *)
(* ================================================================== *)

Module Format.
Local Open Scope Z_scope.

(** Nearest integer to [a / b] for [b > 0], ties to even: Python formats
    the exact binary value, correctly rounded. *)
Definition round_half_even (a b : Z) : Z :=
  let q := a / b in
  let r := a mod b in
  match 2 * r ?= b with
  | Lt => q
  | Gt => q + 1
  | Eq => if Z.even q then q else q + 1
  end.

Definition digit (d : Z) : ascii := ascii_of_N (Z.to_N (48 + d)).

(** The last [n] decimal digits of [z], most significant first. *)
Fixpoint digits_fixed (n : nat) (z : Z) (acc : string) : string :=
  match n with
  | O => acc
  | S n' => digits_fixed n' (z / 10) (String (digit (z mod 10)) acc)
  end.

(** Number of decimal digits of a positive integer (1 for 0). *)
Definition decimal_length (z : Z) : nat :=
  let guess := ((Z.log2 z + 1) * 30103) / 100000 in
  Z.to_nat (if 10 ^ guess <=? z then guess + 1 else Z.max guess 1).

Definition decimal (z : Z) : string := digits_fixed (decimal_length z) z EmptyString.

Definition sign_prefix (s : bool) : string := if s then "-" else EmptyString.

(** [z] scaled by [10 ^ p]: the integer part, a point, [p] digits. *)
Definition fixed_point (p : nat) (z : Z) : string :=
  let scale := 10 ^ Z.of_nat p in
  match p with
  | O => decimal z
  | _ => decimal (z / scale) ++ "." ++ digits_fixed p (z mod scale) EmptyString
  end.

(** A positive finite value [m * 2 ^ e] as a fraction of integers. *)
Definition numerator (m : positive) (e : Z) : Z :=
  match e with Zpos _ => Zpos m * 2 ^ e | _ => Zpos m end.

Definition denominator (e : Z) : Z :=
  match e with Zneg k => 2 ^ Zpos k | _ => 1 end.

(** [format(x, ".pf")] *)
Definition format_f (p : nat) (x : float) : string :=
  match x with
  | S754_nan => "nan"
  | S754_infinity s => sign_prefix s ++ "inf"
  | S754_zero s => sign_prefix s ++ fixed_point p 0
  | S754_finite s m e =>
      sign_prefix s ++
      fixed_point p
        (round_half_even (numerator m e * 10 ^ Z.of_nat p) (denominator e))
  end.

(** Whether [10 ^ d <= a / b]. *)
Definition pow10_le (d a b : Z) : bool :=
  match d with
  | Zneg k => b <=? a * 10 ^ Zpos k
  | _ => 10 ^ d * b <=? a
  end.

(** The decimal exponent of [a / b]: the greatest [d] with
    [10 ^ d <= a / b]. *)
Definition floor_log10 (a b : Z) : Z :=
  let guess := ((Z.log2 a - Z.log2 b) * 30103) / 100000 in
  if pow10_le (guess + 1) a b then guess + 1
  else if pow10_le guess a b then guess
  else guess - 1.

(** [a / b] divided by [10 ^ d], rounded to an integer. *)
Definition scaled (a b d : Z) : Z :=
  match d with
  | Zneg k => round_half_even (a * 10 ^ Zpos k) b
  | _ => round_half_even a (b * 10 ^ d)
  end.

Definition exponent_part (d : Z) : string :=
  (if d <? 0 then "e-" else "e+") ++
  digits_fixed (Nat.max 2 (decimal_length (Z.abs d))) (Z.abs d) EmptyString.

(** A mantissa of [p + 1] digits with the point after the first. *)
Definition mantissa_part (p : nat) (z : Z) : string :=
  match digits_fixed (S p) z EmptyString with
  | String c rest =>
      String c (match p with O => EmptyString | _ => "." ++ rest end)
  | EmptyString => EmptyString
  end.

(** [format(x, ".pe")] *)
Definition format_e (p : nat) (x : float) : string :=
  match x with
  | S754_nan => "nan"
  | S754_infinity s => sign_prefix s ++ "inf"
  | S754_zero s => sign_prefix s ++ mantissa_part p 0 ++ exponent_part 0
  | S754_finite s m e =>
      let a := numerator m e in
      let b := denominator e in
      let d := floor_log10 a b in
      let z := scaled a b (d - Z.of_nat p) in
      let carry := 10 ^ Z.of_nat (S p) <=? z in
      sign_prefix s ++
      mantissa_part p (if carry then z / 10 else z) ++
      exponent_part (if carry then d + 1 else d)
  end.

End Format.

(* ================================================================== *)
(** ** Python: [str.encode], [hashlib.sha256], [str.upper], slicing *)
(* ================================================================== *)

(** A Python [str] is kept as the bytes of its UTF-8 form, which is how the
    text of the script is stored: [encode] hands those bytes over. *)
Definition encode (s : string) : list Z :=
  map (fun c => Z.of_N (N_of_ascii c)) (list_ascii_of_string s).

Module Sha256.
Local Open Scope Z_scope.

Definition w32 (x : Z) : Z := Z.land x 0xffffffff.

Definition rotr (n x : Z) : Z :=
  Z.lor (Z.shiftr x n) (w32 (Z.shiftl x (32 - n))).

Definition Ch (x y z : Z) : Z :=
  Z.lxor (Z.land x y) (Z.land (Z.lxor x 0xffffffff) z).

Definition Maj (x y z : Z) : Z :=
  Z.lxor (Z.lxor (Z.land x y) (Z.land x z)) (Z.land y z).

Definition Sigma0 (x : Z) : Z := Z.lxor (Z.lxor (rotr 2 x) (rotr 13 x)) (rotr 22 x).
Definition Sigma1 (x : Z) : Z := Z.lxor (Z.lxor (rotr 6 x) (rotr 11 x)) (rotr 25 x).
Definition sigma0 (x : Z) : Z := Z.lxor (Z.lxor (rotr 7 x) (rotr 18 x)) (Z.shiftr x 3).
Definition sigma1 (x : Z) : Z := Z.lxor (Z.lxor (rotr 17 x) (rotr 19 x)) (Z.shiftr x 10).

(** Primes by trial division, and the first [n] of them. *)
Definition is_prime (p : Z) : bool :=
  (1 <? p) && forallb (fun d => negb (p mod d =? 0)) (map Z.of_nat (seq 2 (Z.to_nat p - 2))).

Definition primes (n : nat) : list Z :=
  firstn n (filter is_prime (map Z.of_nat (seq 2 310))).

(** Integer cube root, one bit at a time from bit [n - 1] down. *)
Fixpoint cube_root_bits (n : nat) (x r : Z) : Z :=
  match n with
  | O => r
  | S n' =>
      let r' := r + 2 ^ Z.of_nat n' in
      cube_root_bits n' x (if r' * r' * r' <=? x then r' else r)
  end.

(** The round constants: the first 32 bits of the fractional parts of the
    cube roots of the first 64 primes (FIPS 180-4, section 4.2.2). *)
Definition K : list Z :=
  map (fun p => w32 (cube_root_bits 36 (p * 2 ^ 96) 0)) (primes 64).

(** The eight working words. *)
Record state : Type := State {
  ha : Z; hb : Z; hc : Z; hd : Z; he : Z; hf : Z; hg : Z; hh : Z
}.

(** The initial hash value: the first 32 bits of the fractional parts of the
    square roots of the first 8 primes (section 5.3.3). *)
Definition root_word (p : Z) : Z := w32 (Z.sqrt (p * 2 ^ 64)).

Definition H0 : state :=
  State (root_word 2) (root_word 3) (root_word 5) (root_word 7)
        (root_word 11) (root_word 13) (root_word 17) (root_word 19).

(** Padding: the bit 1, zeros up to 56 modulo 64 bytes, the length in bits
    on 8 bytes, most significant first. *)
Definition be_bytes (n : nat) (x : Z) : list Z :=
  map (fun i => Z.land (Z.shiftr x (8 * Z.of_nat i)) 0xff) (rev (seq 0 n)).

Definition pad (msg : list Z) : list Z :=
  let len := Z.of_nat (List.length msg) in
  let zeros := Z.to_nat ((55 - len) mod 64) in
  msg ++ [0x80] ++ repeat 0 zeros ++ be_bytes 8 (8 * len).

(** Big-endian 32-bit words of a byte string (a multiple of 4 long). *)
Fixpoint words (bytes : list Z) : list Z :=
  match bytes with
  | b0 :: b1 :: b2 :: b3 :: rest =>
      Z.lor (Z.lor (Z.lor (Z.shiftl b0 24) (Z.shiftl b1 16)) (Z.shiftl b2 8)) b3
        :: words rest
  | _ => []
  end.

Fixpoint blocks (n : nat) (ws : list Z) : list (list Z) :=
  match n with
  | O => []
  | S n' => firstn 16 ws :: blocks n' (skipn 16 ws)
  end.

(** The message schedule, newest word first: [n] words are added to [w]. *)
Fixpoint schedule (n : nat) (w : list Z) : list Z :=
  match n with
  | O => w
  | S n' =>
      let wt := w32 (sigma1 (nth 1 w 0) + nth 6 w 0 + sigma0 (nth 14 w 0) + nth 15 w 0) in
      schedule n' (wt :: w)
  end.

Definition round (s : state) (kw : Z * Z) : state :=
  let (k, w) := kw in
  let T1 := hh s + Sigma1 (he s) + Ch (he s) (hf s) (hg s) + k + w in
  let T2 := Sigma0 (ha s) + Maj (ha s) (hb s) (hc s) in
  State (w32 (T1 + T2)) (ha s) (hb s) (hc s) (w32 (hd s + T1)) (he s) (hf s) (hg s).

Definition compress (s : state) (block : list Z) : state :=
  let w := rev (schedule 48 (rev block)) in
  let t := fold_left round (combine K w) s in
  State (w32 (ha s + ha t)) (w32 (hb s + hb t)) (w32 (hc s + hc t)) (w32 (hd s + hd t))
        (w32 (he s + he t)) (w32 (hf s + hf t)) (w32 (hg s + hg t)) (w32 (hh s + hh t)).

Definition sha256 (msg : list Z) : state :=
  let p := pad msg in
  fold_left compress (blocks (List.length p / 64) (words p)) H0.

Definition hex_digit (d : Z) : ascii :=
  ascii_of_N (Z.to_N (if d <? 10 then 48 + d else 87 + d)).

Definition hex_word (w : Z) : string :=
  fold_right (fun i acc => String (hex_digit (Z.land (Z.shiftr w (4 * Z.of_nat i)) 0xf)) acc)
             EmptyString (rev (seq 0 8)).

(** [hash_obj.hexdigest()]: 64 lower-case hexadecimal characters. *)
Definition hexdigest (s : state) : string :=
  (hex_word (ha s) ++ hex_word (hb s) ++ hex_word (hc s) ++ hex_word (hd s) ++
   hex_word (he s) ++ hex_word (hf s) ++ hex_word (hg s) ++ hex_word (hh s))%string.

End Sha256.

(** [s[:n]] *)
Fixpoint slice_to (n : nat) (s : string) : string :=
  match n, s with
  | S n', String c rest => String c (slice_to n' rest)
  | _, _ => EmptyString
  end.

(** [c.upper()] for an ASCII character. *)
Definition upper_char (c : ascii) : ascii :=
  let n := N_of_ascii c in
  if ((97 <=? n) && (n <=? 122))%N then ascii_of_N (n - 32) else c.

(** [s.upper()] on ASCII text. *)
Fixpoint upper (s : string) : string :=
  match s with
  | EmptyString => EmptyString
  | String c rest => String (upper_char c) (upper rest)
  end.

(* ================================================================== *)
(** ** The script *)
(* ================================================================== *)

(** Fundamental constants *)
Definition HBAR : float := B64.of_Q 1.054571817e-34.
Definition C : float := B64.of_Q 2.99792458e8.
Definition L_P : float := B64.of_Q 1.616255e-35.
Definition G_COUPLING : float := B64.of_Q 1.0.
Definition EPSILON : float := B64.of_Q 1e-40.

(** The attributes [__init__] gives to [self]. *)
Record HardingYangMillsVerifier : Type := {
  S_H : float;
  F_H : float
}.

(** The dict [run_complete_verification] returns. *)
Module Results.
Record t : Type := {
  F_H : float;
  gamma : float;
  delta : float;
  K : float;
  S_HYM : float;
  quantum_ledger_hash : string;
  verified : bool
}.
End Results.

(** The builtin [min] of three arguments: the first least one,
    compared with [<]. *)
Definition min3 (a b c : float) : float :=
  let m := if B64.ltb b a then b else a in
  if B64.ltb c m then c else m.

(** [def generate_quantum_ledger_hash(self, F_H, gamma, delta, K)] *)
Definition state_data (F_H gamma delta K : float) : string :=
  ("F_H:" ++ Format.format_e 2 F_H ++ "|γ:" ++ Format.format_f 6 gamma ++
   "|Δ:" ++ Format.format_e 2 delta ++ "|K:" ++ Format.format_f 2 K)%string.

Definition generate_quantum_ledger_hash (F_H gamma delta K : float) : string :=
  let hash_obj := Sha256.sha256 (encode (state_data F_H gamma delta K)) in
  upper (slice_to 20 (Sha256.hexdigest hash_obj)).

Section Script.
Variable rt : Runtime.
Local Open Scope py_scope.
Local Open Scope py_monad_scope.

(** [def __init__(self)] *)
Definition __init__ : Py HardingYangMillsVerifier :=
  p <- float_pow rt HBAR (num 1.5) ;;
  let S_H := (p * C) / B64.sqrt L_P in
  ret {| S_H := S_H; F_H := S_H |}.

(** The bound method [self.topological_density_theta_A], on floats. *)
Definition theta : float -> float -> float :=
  @topological_density_theta_A float (binary64_arith rt).

(** [def yang_mills_action(self)] *)
Definition yang_mills_action (self : HardingYangMillsVerifier) : Py float :=
  let (F_term, _) := dblquad rt theta (num 0) (num 1) (num 0) (num 1) in
  g2 <- float_pow rt G_COUPLING (num 2) ;;
  ret (num 4 * g2 * F_term).

(** [def phase_1_regulator_energy_floor(self)]: it prints [HBAR**1.5],
    [np.sqrt(L_P)] and [self.F_H]. *)
Definition phase_1_regulator_energy_floor (self : HardingYangMillsVerifier)
  : Py unit :=
  _ <- float_pow rt HBAR (num 1.5) ;;
  ret tt.

(** [def phase_2_damping_coefficient(self)] *)
Definition phase_2_damping_coefficient (self : HardingYangMillsVerifier)
  : Py float :=
  let (gamma, _) := dblquad rt theta (num 0) (num 1) (num 0) (num 1) in
  let nonlinear_term := num 1.0 in
  p <- float_pow rt nonlinear_term (num 1 / num 3) ;;
  let damping_bound := gamma * p in
  print DampingInequality (nonlinear_term <=? damping_bound) ;;
  ret gamma.

(** [def phase_3_mass_gap_solution(self, gamma)] *)
Definition phase_3_mass_gap_solution (self : HardingYangMillsVerifier)
  (gamma : float) : Py float :=
  S_YM <- yang_mills_action self ;;
  let topo_term := F_H self * gamma in
  let delta := EPSILON + topo_term in
  let positivity_check := delta >? num 0 in
  let constraint_check := gamma >? (- S_YM) / F_H self in
  print Constraint constraint_check ;;
  print MassGapPositivity positivity_check ;;
  ret delta.

(** [def phase_4_sobolev_boundary(self, S_HYM, delta)] *)
Definition phase_4_sobolev_boundary (self : HardingYangMillsVerifier)
  (S_HYM delta : float) : Py float :=
  let u_norm := num 1.0 in
  let grad_u_norm := num 0.8 in
  let grad2_u_norm := num 0.6 in
  let K := grad2_u_norm + grad_u_norm + u_norm in
  let C := min3 grad2_u_norm grad_u_norm u_norm * num 1.5 in
  let sobolev_bound := C * S_HYM in
  print SobolevBound (K <=? sobolev_bound) ;;
  ret K.

(** [def run_complete_verification(self)] *)
Definition run_complete_verification (self : HardingYangMillsVerifier)
  : Py Results.t :=
  phase_1_regulator_energy_floor self ;;
  gamma <- phase_2_damping_coefficient self ;;
  delta <- phase_3_mass_gap_solution self gamma ;;
  ym <- yang_mills_action self ;;
  let S_HYM := ym + F_H self * gamma + delta in
  K <- phase_4_sobolev_boundary self S_HYM delta ;;
  let qledger_hash := generate_quantum_ledger_hash (F_H self) gamma delta K in
  ret {| Results.F_H := F_H self;
         Results.gamma := gamma;
         Results.delta := delta;
         Results.K := K;
         Results.S_HYM := S_HYM;
         Results.quantum_ledger_hash := qledger_hash;
         Results.verified := delta >? num 0 |}.

(** [if __name__ == "__main__":] *)
Definition main : Py Results.t :=
  verifier <- __init__ ;;
  results <- run_complete_verification verifier ;;
  ret results.

End Script.


(* ================================================================== *)
(** ** A runtime to run the script on *)
(* ================================================================== *)

(** Small stand-ins for the numerical libraries, good enough to execute the
    script inside Rocq: power by an exact cube and a rounded square root,
    sine and cosine by their Taylor series, and the tensor midpoint rule as
    quadrature. *)
Module Sample.
Local Open Scope py_scope.

(** [x ** 1.5]; the script sends no other exponent to the C library. *)
Definition sqrt_cube_pow (x y : float) : float :=
  match x with
  | S754_finite false m e =>
      if B64.eqb y (num 1.5)
      then B64.sqrt (S754_finite false (m * m * m) (3 * e))
      else S754_nan
  | _ => S754_nan
  end.

(** [n] more terms of an alternating power series in [x2], the next one
    being the current term times [- x2 / ((k + 1) * (k + 2))]. *)
Fixpoint series (n : nat) (k : Z) (x2 term acc : float) : float :=
  match n with
  | O => acc
  | S n' =>
      let term' := - (term * x2) / num (inject_Z ((k + 1) * (k + 2))) in
      series n' (k + 2)%Z x2 term' (acc + term')
  end.

Definition taylor_sin (x : float) : float := series 40 1 (x * x) x x.

Definition taylor_cos (x : float) : float := series 40 0 (x * x) (num 1) (num 1).

Definition nodes (a b : float) : list float :=
  map (fun i => a + (b + - a) * num (inject_Z (2 * i + 1) / 8)) [0; 1; 2; 3]%Z.

Definition total (l : list float) : float := fold_left B64.add l (num 0).

(** Outer variable in [[a, b]], inner one (the first argument of [func])
    in [[g, h]]. *)
Definition midpoint_dblquad (func : float -> float -> float) (a b g h : float)
  : float * float :=
  (total (map (fun x => total (map (fun y => func y x) (nodes g h))) (nodes a b))
   * ((b + - a) * (h + - g) * num (1 / 16)),
   num 0).

Definition runtime : Runtime :=
  {| libm_pow := sqrt_cube_pow;
     libm_sin := taylor_sin;
     libm_cos := taylor_cos;
     dblquad := midpoint_dblquad |}.

End Sample.


(* ================================================================== *)
(** ** What the quadrature approximates *)
(* ================================================================== *)

(** The field function read in the real numbers. *)
Definition theta_R : R -> R -> R :=
  @topological_density_theta_A R real_arith.

(** [v] is the Riemann integral of [f] over [[a, b]]. *)
Definition is_integral (f : R -> R) (a b v : R) : Prop :=
  exists pr : Riemann_integrable f a b, RiemannInt pr = v.

(** [v] is the integral [dblquad(func, a, b, g, h)] approximates: the outer
    variable runs over [[a, b]], the inner one, which is the first argument
    of [func], over [[g, h]]. *)
Definition is_double_integral (func : R -> R -> R) (a b g h v : R) : Prop :=
  exists inner : R -> R,
    (forall x, (a <= x <= b)%R -> is_integral (fun y => func y x) g h (inner x))
    /\ is_integral inner a b v.

(** The value the quadrature returns for the field function over the unit
    square. *)
Definition quadrature_value (rt : Runtime) : float :=
  fst (dblquad rt (theta rt) (num 0) (num 1) (num 0) (num 1)).

(** An antiderivative of the field function in its first argument. *)
Definition theta_primitive (y x : R) : R :=
  (x + (- (0.1 / (2 * PI))) * cos (2 * PI * x + 2 * PI * y)
     + (0.05 * sin (4 * PI * y) / (4 * PI)) * sin (4 * PI * x + 0))%R.

(** The contract of the quadrature (section 4.2 of the specification) on the
    one integral the script asks for: a finite value within [tol] of the
    integral of the field function over the unit square. *)
Definition quadrature_within (rt : Runtime) (tol : R) : Prop :=
  let gamma := quadrature_value rt in
  B64.is_finite gamma = true /\
  forall v, is_double_integral theta_R 0 1 0 1 v ->
            (Rabs (B64.to_R gamma - v) <= tol)%R.

(** The characters of an upper-case hexadecimal digest. *)
Definition is_upper_hex (c : ascii) : bool :=
  let n := N_of_ascii c in
  ((48 <=? n) && (n <=? 57) || (65 <=? n) && (n <=? 70))%N.

Fixpoint string_forall (p : ascii -> bool) (s : string) : bool :=
  match s with
  | EmptyString => true
  | String c rest => p c && string_forall p rest
  end.

(** The attributes of the verifier the sample run starts from. *)
Definition sample_self : HardingYangMillsVerifier :=
  {| S_H := S754_finite false 7034924060408389 (-136);
     F_H := S754_finite false 7034924060408389 (-136) |}.

(** The signs a float can have. *)
Definition above_zero (x : float) : Prop :=
  match x with
  | S754_finite false _ _ | S754_infinity false => True
  | _ => False
  end.

Definition nonnegative (x : float) : Prop :=
  match x with
  | S754_zero false | S754_finite false _ _ | S754_infinity false => True
  | _ => False
  end.

Definition positive_finite (x : float) : Prop :=
  match x with
  | S754_finite false _ _ => True
  | _ => False
  end.

Abbreviation emin := (SpecFloat.emin B64.prec B64.emax).
Abbreviation fexp := (SpecFloat.fexp B64.prec B64.emax).

(** ** Further definitions *)

(** The sample runtime with a quadrature that returns [v] whatever it is
    asked. *)
Definition constant_quadrature (v : float) : Runtime :=
  {| libm_pow := Sample.sqrt_cube_pow;
     libm_sin := Sample.taylor_sin;
     libm_cos := Sample.taylor_cos;
     dblquad := fun _ _ _ _ _ => (v, num 0) |}.

(** [s * n] *)
Fixpoint repeat_string (n : nat) (s : string) : string :=
  match n with
  | O => EmptyString
  | S n' => (s ++ repeat_string n' s)%string
  end.

(** The lines the [__main__] block prints once the run has returned. *)
Definition closing_report (results : Results.t) : list string :=
  [ String "010"%char (repeat_string 60 "=");
    "✅ HARDING-YANG-MILLS PHASE 5 VERIFICATION: PASSED"%string;
    "✅ Production-ready for RomanAI Nexus deployment"%string;
    ("✅ Quantum Ledger Hash: " ++ Results.quantum_ledger_hash results)%string ].

(** Not above zero, NaN apart. *)
Definition nonpositive (x : float) : Prop :=
  match x with
  | S754_zero true | S754_finite true _ _ | S754_infinity true => True
  | _ => False
  end.

(** An antiderivative of the field function in its second argument. *)
Definition theta_primitive_y (x y : R) : R :=
  (y + (- (0.1 / (2 * PI))) * cos (2 * PI * y + 2 * PI * x)
     + (- (0.05 * cos (4 * PI * x) / (4 * PI))) * cos (4 * PI * y + 0))%R.

(* ================================================================== *)
(** * Properties *)
(* ================================================================== *)

(** ** The monad *)

Lemma bind_ret_l (A B : Type) (a : A) (k : A -> Py B) : bind (ret a) k = k a.
Proof. unfold bind, ret. destruct (k a) as [r out]. reflexivity. Qed.

Lemma fst_bind_print (A : Type) (c : check) (b : bool) (k : Py A) :
  fst (bind (print c b) (fun _ => k)) = fst k.
Proof. unfold bind, print. destruct k as [r out]. reflexivity. Qed.

(** ** Literals and the constants *)

Example num_one : num 1 = S754_finite false 4503599627370496 (-52).
Proof. vm_compute. reflexivity. Qed.

Example EPSILON_value : EPSILON = S754_finite false 4903985730770844 (-185).
Proof. vm_compute. reflexivity. Qed.

Example np_pi_value (rt : Runtime) :
  @np_pi float (binary64_arith rt) = S754_finite false 7074237752028440 (-51).
Proof. vm_compute. reflexivity. Qed.

(** [1.0 ** w] is 1.0 whatever the C library does. *)
Lemma float_pow_one (rt : Runtime) (w : float) :
  float_pow rt (num 1) w = ret (num 1).
Proof.
  destruct w as [s | s | | s m e]; try destruct s; vm_compute; reflexivity.
Qed.

Lemma G_COUPLING_squared (rt : Runtime) :
  float_pow rt G_COUPLING (num 2) = ret (num 1).
Proof. vm_compute. reflexivity. Qed.

Lemma nonlinear_term_cube_root (rt : Runtime) :
  float_pow rt (num 1.0) (num 1 / num 3)%py = ret (num 1).
Proof. vm_compute. reflexivity. Qed.

(** [HBAR ** 1.5] is the one call of the C library. *)
Lemma HBAR_pow (rt : Runtime) :
  float_pow rt HBAR (num 1.5) =
  if B64.is_inf (libm_pow rt HBAR (num 1.5)) then raise OverflowError
  else ret (libm_pow rt HBAR (num 1.5)).
Proof.
  unfold float_pow.
  replace (B64.eqb (num 1.5) (S754_zero false)) with false by (vm_compute; reflexivity).
  replace (B64.is_nan HBAR) with false by (vm_compute; reflexivity).
  replace (B64.is_nan (num 1.5)) with false by (vm_compute; reflexivity).
  replace (B64.is_inf (num 1.5)) with false by (vm_compute; reflexivity).
  replace (B64.is_inf HBAR) with false by (vm_compute; reflexivity).
  replace (B64.eqb HBAR (S754_zero false)) with false by (vm_compute; reflexivity).
  replace (B64.ltb HBAR (S754_zero false)) with false by (vm_compute; reflexivity).
  replace (SFabs HBAR) with HBAR by (vm_compute; reflexivity).
  replace (B64.eqb HBAR (B64.of_Q 1)) with false by (vm_compute; reflexivity).
  cbn [andb]. reflexivity.
Qed.

(** ** The phases, unfolded *)

Section Phases.
Variable rt : Runtime.
Variable self : HardingYangMillsVerifier.
Local Open Scope py_scope.

Lemma yang_mills_action_eq :
  yang_mills_action rt self = ret (num 4 * quadrature_value rt).
Proof.
  unfold yang_mills_action, quadrature_value.
  destruct (dblquad rt (theta rt) (num 0) (num 1) (num 0) (num 1)) as [F_term err].
  rewrite G_COUPLING_squared, bind_ret_l. cbn [fst].
  replace (num 4 * num 1) with (num 4) by (vm_compute; reflexivity).
  reflexivity.
Qed.

Lemma phase_2_eq :
  phase_2_damping_coefficient rt self =
  (inr (quadrature_value rt),
   [(DampingInequality, num 1.0 <=? quadrature_value rt * num 1)]).
Proof.
  unfold phase_2_damping_coefficient, quadrature_value.
  destruct (dblquad rt (theta rt) (num 0) (num 1) (num 0) (num 1)) as [gamma err].
  rewrite nonlinear_term_cube_root, bind_ret_l. reflexivity.
Qed.

Lemma phase_3_eq (gamma : float) :
  phase_3_mass_gap_solution rt self gamma =
  (inr (EPSILON + F_H self * gamma),
   [(Constraint, gamma >? (- (num 4 * quadrature_value rt)) / F_H self);
    (MassGapPositivity, EPSILON + F_H self * gamma >? num 0)]).
Proof.
  unfold phase_3_mass_gap_solution.
  rewrite yang_mills_action_eq, bind_ret_l. reflexivity.
Qed.

Lemma phase_4_eq (S_HYM delta : float) :
  phase_4_sobolev_boundary self S_HYM delta =
  (inr (num 0.6 + num 0.8 + num 1.0),
   [(SobolevBound,
     num 0.6 + num 0.8 + num 1.0
       <=? min3 (num 0.6) (num 0.8) (num 1.0) * num 1.5 * S_HYM)]).
Proof. reflexivity. Qed.

End Phases.

(** ** The aggregate and the stabilization check *)

(** C5. Whatever it is called with, [phase_4_sobolev_boundary] returns the
    sum of the placeholder norms 0.6, 0.8 and 1.0, and in binary64 that sum
    is exactly the float 2.4. *)
Theorem K_is_exactly_2_4 (self : HardingYangMillsVerifier) (S_HYM delta : float) :
  fst (phase_4_sobolev_boundary self S_HYM delta) = inr (num 2.4)
  /\ (num 0.6 + num 0.8 + num 1.0)%py = num 2.4.
Proof.
  rewrite phase_4_eq. cbn [fst].
  assert (E : (num 0.6 + num 0.8 + num 1.0)%py = num 2.4) by (vm_compute; reflexivity).
  rewrite E. split; reflexivity.
Qed.

(** C4, as the specification words it, fails: on [S_HYM = 4.0] the line that
    is printed says [VERIFIED], although [K] is above the threshold
    [min(0.6, 0.8, 1.0) * 1.5]. *)
Lemma sobolev_check_is_not_against_the_threshold :
  snd (phase_4_sobolev_boundary sample_self (num 4) (num 0)) = [(SobolevBound, true)]
  /\ (num 0.6 + num 0.8 + num 1.0 <=? min3 (num 0.6) (num 0.8) (num 1.0) * num 1.5)%py
     = false.
Proof. split; vm_compute; reflexivity. Qed.

(** C4, amended. [K], the sum of the three placeholder norms, is compared
    against the product of the stabilization constant (the least of the
    three norms times 1.5) and the argument [S_HYM]; the outcome only selects
    the line that is printed, and the least norm is 0.6. *)
Theorem sobolev_check_is_against_C_times_S_HYM
  (self : HardingYangMillsVerifier) (S_HYM delta : float) :
  let K := (num 0.6 + num 0.8 + num 1.0)%py in
  let C := (min3 (num 0.6) (num 0.8) (num 1.0) * num 1.5)%py in
  phase_4_sobolev_boundary self S_HYM delta
    = (inr K, [(SobolevBound, (K <=? C * S_HYM)%py)])
  /\ min3 (num 0.6) (num 0.8) (num 1.0) = num 0.6.
Proof.
  split.
  - apply phase_4_eq.
  - vm_compute. reflexivity.
Qed.

(** ** The Yang-Mills action *)

(** C9. [yang_mills_action] returns [4 * G_COUPLING**2] times the value of
    the quadrature that [phase_2_damping_coefficient] returns as gamma, and
    with [G_COUPLING = 1.0] that is the float product [4 * gamma]; neither
    call raises. *)
Theorem S_YM_is_four_gamma (rt : Runtime) (self : HardingYangMillsVerifier) :
  exists gamma g2 : float,
    fst (phase_2_damping_coefficient rt self) = inr gamma
    /\ gamma = fst (dblquad rt (theta rt) (num 0) (num 1) (num 0) (num 1))
    /\ float_pow rt G_COUPLING (num 2) = ret g2
    /\ yang_mills_action rt self = ret (num 4 * g2 * gamma)%py
    /\ yang_mills_action rt self = ret (num 4 * gamma)%py.
Proof.
  exists (quadrature_value rt), (num 1).
  split; [rewrite phase_2_eq; reflexivity|].
  split; [reflexivity|].
  split; [apply G_COUPLING_squared|].
  split; [|apply yang_mills_action_eq].
  rewrite yang_mills_action_eq.
  replace (num 4 * num 1)%py with (num 4) by (vm_compute; reflexivity).
  reflexivity.
Qed.

(** ** The constructor and the gap *)

Lemma init_eq (rt : Runtime) :
  __init__ rt =
  if B64.is_inf (libm_pow rt HBAR (num 1.5)) then raise OverflowError
  else ret {| S_H := (libm_pow rt HBAR (num 1.5) * C / B64.sqrt L_P)%py;
              F_H := (libm_pow rt HBAR (num 1.5) * C / B64.sqrt L_P)%py |}.
Proof.
  unfold __init__. rewrite HBAR_pow.
  destruct (B64.is_inf (libm_pow rt HBAR (num 1.5))); reflexivity.
Qed.

Lemma init_success (rt : Runtime) (self : HardingYangMillsVerifier) :
  fst (__init__ rt) = inr self ->
  B64.is_inf (libm_pow rt HBAR (num 1.5)) = false
  /\ __init__ rt = ret self
  /\ F_H self = (libm_pow rt HBAR (num 1.5) * C / B64.sqrt L_P)%py
  /\ S_H self = F_H self.
Proof.
  rewrite init_eq.
  remember (libm_pow rt HBAR (num 1.5) * C / B64.sqrt L_P)%py as floor eqn:Efloor.
  destruct (B64.is_inf (libm_pow rt HBAR (num 1.5))); cbn [fst raise ret].
  - discriminate.
  - intros E. injection E as <-. repeat split.
Qed.

Example init_sample : __init__ Sample.runtime = ret sample_self.
Proof. vm_compute. reflexivity. Qed.

(** C3. On a verifier that [__init__] built, [phase_3_mass_gap_solution]
    returns [EPSILON + F_H * gamma] for every [gamma], and [F_H] is
    [(HBAR**1.5 * C) / sqrt(L_P)]: a function of the constants alone, the
    power being the C library's. *)
Theorem delta_is_epsilon_plus_floor_times_gamma
  (rt : Runtime) (self : HardingYangMillsVerifier) (gamma : float) :
  fst (__init__ rt) = inr self ->
  fst (phase_3_mass_gap_solution rt self gamma) = inr (EPSILON + F_H self * gamma)%py
  /\ float_pow rt HBAR (num 1.5) = ret (libm_pow rt HBAR (num 1.5))
  /\ F_H self = (libm_pow rt HBAR (num 1.5) * C / B64.sqrt L_P)%py.
Proof.
  intros Hinit. destruct (init_success rt self Hinit) as (Hfin & _ & HF & _).
  rewrite phase_3_eq. rewrite HBAR_pow, Hfin. auto.
Qed.

Lemma delta_is_epsilon_plus_floor_times_gamma_sample :
  fst (phase_3_mass_gap_solution Sample.runtime sample_self (num 1))
    = inr (EPSILON + F_H sample_self * num 1)%py
  /\ float_pow Sample.runtime HBAR (num 1.5)
     = ret (libm_pow Sample.runtime HBAR (num 1.5))
  /\ F_H sample_self
     = (libm_pow Sample.runtime HBAR (num 1.5) * C / B64.sqrt L_P)%py.
Proof.
  apply (@delta_is_epsilon_plus_floor_times_gamma Sample.runtime sample_self (num 1)).
  vm_compute. reflexivity.
Defined.

(** ** The run *)

Lemma run_complete_verification_eq (rt : Runtime) (self : HardingYangMillsVerifier) :
  B64.is_inf (libm_pow rt HBAR (num 1.5)) = false ->
  let gamma := quadrature_value rt in
  let delta := (EPSILON + F_H self * gamma)%py in
  let S_HYM := (num 4 * gamma + F_H self * gamma + delta)%py in
  let K := (num 0.6 + num 0.8 + num 1.0)%py in
  run_complete_verification rt self =
  (inr {| Results.F_H := F_H self;
          Results.gamma := gamma;
          Results.delta := delta;
          Results.K := K;
          Results.S_HYM := S_HYM;
          Results.quantum_ledger_hash :=
            generate_quantum_ledger_hash (F_H self) gamma delta K;
          Results.verified := (delta >? num 0)%py |},
   [(DampingInequality, (num 1.0 <=? gamma * num 1)%py);
    (Constraint, (gamma >? (- (num 4 * gamma)) / F_H self)%py);
    (MassGapPositivity, (delta >? num 0)%py);
    (SobolevBound,
     (K <=? min3 (num 0.6) (num 0.8) (num 1.0) * num 1.5 * S_HYM)%py)]).
Proof.
  intros Hfin gamma delta S_HYM K.
  unfold run_complete_verification, phase_1_regulator_energy_floor.
  rewrite HBAR_pow, Hfin, phase_2_eq.
  cbn [bind ret app]. rewrite phase_3_eq. cbn [bind ret app].
  rewrite yang_mills_action_eq. cbn [bind ret app].
  rewrite phase_4_eq. reflexivity.
Qed.

(** C10. On a verifier that [__init__] built, [run_complete_verification]
    raises nothing and returns the record; the four checks print one line
    each whatever their outcome, none of them leads anywhere else; and the
    program ends with exit status 0. *)
Theorem run_complete_verification_returns
  (rt : Runtime) (self : HardingYangMillsVerifier) :
  fst (__init__ rt) = inr self ->
  exists (results : Results.t) (out : stdout),
    run_complete_verification rt self = (inr results, out)
    /\ map fst out = [DampingInequality; Constraint; MassGapPositivity; SobolevBound]
    /\ main rt = (inr results, out)
    /\ exit_code (main rt) = 0%Z.
Proof.
  intros Hinit. destruct (init_success rt self Hinit) as (Hfin & Hret & _).
  pose proof (run_complete_verification_eq rt self Hfin) as Hrun.
  cbv zeta in Hrun.
  eexists. eexists. split; [exact Hrun|]. split; [reflexivity|].
  assert (Hmain : main rt = run_complete_verification rt self).
  { unfold main. rewrite Hret, bind_ret_l, Hrun. reflexivity. }
  rewrite Hmain, Hrun. split; reflexivity.
Qed.

Lemma run_complete_verification_returns_sample :
  exists (results : Results.t) (out : stdout),
    run_complete_verification Sample.runtime sample_self = (inr results, out)
    /\ map fst out = [DampingInequality; Constraint; MassGapPositivity; SobolevBound]
    /\ main Sample.runtime = (inr results, out)
    /\ exit_code (main Sample.runtime) = 0%Z.
Proof.
  apply (@run_complete_verification_returns Sample.runtime sample_self).
  vm_compute. reflexivity.
Defined.

(** ** The digest *)

Lemma length_slice_to (n : nat) (s : string) :
  String.length (slice_to n s) = Nat.min n (String.length s).
Proof.
  revert s. induction n as [|n IH]; intros [|c s]; cbn; auto.
Qed.

Lemma length_upper (s : string) : String.length (upper s) = String.length s.
Proof. induction s as [|c s IH]; cbn; auto. Qed.

Lemma length_append (s t : string) :
  String.length (s ++ t) = (String.length s + String.length t)%nat.
Proof. induction s as [|c s IH]; cbn; auto. Qed.

Lemma length_hex_word (w : Z) : String.length (Sha256.hex_word w) = 8%nat.
Proof. reflexivity. Qed.

Lemma length_hexdigest (st : Sha256.state) :
  String.length (Sha256.hexdigest st) = 64%nat.
Proof.
  unfold Sha256.hexdigest. rewrite !length_append, !length_hex_word. reflexivity.
Qed.

Lemma string_forall_append (p : ascii -> bool) (s t : string) :
  string_forall p (s ++ t) = string_forall p s && string_forall p t.
Proof.
  induction s as [|c s IH]; cbn; [reflexivity|].
  rewrite IH. apply andb_assoc.
Qed.

Lemma string_forall_slice_to (p : ascii -> bool) (n : nat) (s : string) :
  string_forall p s = true -> string_forall p (slice_to n s) = true.
Proof.
  revert s. induction n as [|n IH]; intros [|c s]; cbn; auto.
  intros H. apply andb_true_iff in H as [Hc Hs]. rewrite Hc. cbn. auto.
Qed.

Lemma string_forall_upper (p : ascii -> bool) (s : string) :
  string_forall p (upper s) = string_forall (fun c => p (upper_char c)) s.
Proof. induction s as [|c s IH]; cbn; [reflexivity|]. rewrite IH. reflexivity. Qed.

(** Upper-casing a hexadecimal digit gives one of [0-9A-F]. *)
Lemma hex_digit_upper (d : Z) :
  (0 <= d < 16)%Z -> is_upper_hex (upper_char (Sha256.hex_digit d)) = true.
Proof.
  intros H.
  assert (E : (d = 0 \/ d = 1 \/ d = 2 \/ d = 3 \/ d = 4 \/ d = 5 \/ d = 6 \/ d = 7
               \/ d = 8 \/ d = 9 \/ d = 10 \/ d = 11 \/ d = 12 \/ d = 13 \/ d = 14
               \/ d = 15)%Z) by lia.
  repeat (destruct E as [-> | E]; [reflexivity|]). subst d. reflexivity.
Qed.

Lemma nibble_range (x : Z) : (0 <= Z.land x 0xf < 16)%Z.
Proof.
  change 0xf%Z with (Z.ones 4). rewrite Z.land_ones by lia.
  apply Z.mod_pos_bound. reflexivity.
Qed.

Lemma hex_word_upper (w : Z) :
  string_forall (fun c => is_upper_hex (upper_char c)) (Sha256.hex_word w) = true.
Proof.
  unfold Sha256.hex_word. cbn [rev seq app fold_right string_forall].
  rewrite !hex_digit_upper by apply nibble_range. reflexivity.
Qed.

Lemma hexdigest_upper (st : Sha256.state) :
  string_forall is_upper_hex (upper (Sha256.hexdigest st)) = true.
Proof.
  rewrite string_forall_upper. unfold Sha256.hexdigest.
  rewrite !string_forall_append, !hex_word_upper. reflexivity.
Qed.

(** The two standard test vectors of SHA-256. *)
Example sha256_abc :
  Sha256.hexdigest (Sha256.sha256 (encode "abc"))
  = "ba7816bf8f01cfea414140de5dae2223b00361a396177a9cb410ff61f20015ad"%string.
Proof. vm_compute. reflexivity. Qed.

Example sha256_empty :
  Sha256.hexdigest (Sha256.sha256 (encode EmptyString))
  = "e3b0c44298fc1c149afbf4c8996fb92427ae41e4649b934ca495991b7852b855"%string.
Proof. vm_compute. reflexivity. Qed.

(** C7. The digest is a function of the formatted string alone, which is a
    function of the four scalars: equal scalars give equal strings, equal
    strings give equal digests.  The digest is the first 20 characters of
    the hexadecimal SHA-256 digest of the UTF-8 bytes of that string, in
    upper case: 20 characters among [0-9A-F]. *)
Theorem ledger_hash_is_truncated_sha256
  (F_H gamma delta K F_H' gamma' delta' K' : float) :
  state_data F_H gamma delta K = state_data F_H' gamma' delta' K' ->
  generate_quantum_ledger_hash F_H gamma delta K
    = generate_quantum_ledger_hash F_H' gamma' delta' K'
  /\ generate_quantum_ledger_hash F_H gamma delta K
     = upper (slice_to 20
         (Sha256.hexdigest (Sha256.sha256 (encode (state_data F_H gamma delta K)))))
  /\ String.length (generate_quantum_ledger_hash F_H gamma delta K) = 20%nat
  /\ string_forall is_upper_hex (generate_quantum_ledger_hash F_H gamma delta K) = true
  /\ ((F_H, gamma, delta, K) = (F_H', gamma', delta', K') ->
      state_data F_H gamma delta K = state_data F_H' gamma' delta' K').
Proof.
  intros Hs. unfold generate_quantum_ledger_hash.
  split; [|split; [|split; [|split]]].
  - rewrite Hs. reflexivity.
  - reflexivity.
  - rewrite length_upper, length_slice_to, length_hexdigest. reflexivity.
  - rewrite string_forall_upper. apply string_forall_slice_to.
    rewrite <- string_forall_upper. apply hexdigest_upper.
  - intros E. injection E as -> -> -> ->. reflexivity.
Qed.

(** Two runs whose gamma differ in the last bit print the same six decimals
    and get the same digest. *)
Lemma ledger_hash_is_truncated_sha256_sample :
  generate_quantum_ledger_hash (F_H sample_self) (num 1) (num 8.08e-26) (num 2.4)
    = generate_quantum_ledger_hash
        (F_H sample_self) (num 1.0000000000000002) (num 8.08e-26) (num 2.4)
  /\ generate_quantum_ledger_hash (F_H sample_self) (num 1) (num 8.08e-26) (num 2.4)
     = upper (slice_to 20
         (Sha256.hexdigest (Sha256.sha256 (encode
            (state_data (F_H sample_self) (num 1) (num 8.08e-26) (num 2.4))))))
  /\ String.length
       (generate_quantum_ledger_hash (F_H sample_self) (num 1) (num 8.08e-26) (num 2.4))
     = 20%nat
  /\ string_forall is_upper_hex
       (generate_quantum_ledger_hash (F_H sample_self) (num 1) (num 8.08e-26) (num 2.4))
     = true
  /\ ((F_H sample_self, num 1, num 8.08e-26, num 2.4)
        = (F_H sample_self, num 1.0000000000000002, num 8.08e-26, num 2.4) ->
      state_data (F_H sample_self) (num 1) (num 8.08e-26) (num 2.4)
        = state_data (F_H sample_self) (num 1.0000000000000002) (num 8.08e-26) (num 2.4)).
Proof.
  apply (@ledger_hash_is_truncated_sha256
           (F_H sample_self) (num 1) (num 8.08e-26) (num 2.4)
           (F_H sample_self) (num 1.0000000000000002) (num 8.08e-26) (num 2.4)).
  vm_compute. reflexivity.
Defined.

(** The sample run, end to end. *)
Example main_sample :
  main Sample.runtime =
  (inr {| Results.F_H := S754_finite false 7034924060408389 (-136);
          Results.gamma := num 1;
          Results.delta := S754_finite false 7034924060408398 (-136);
          Results.K := num 2.4;
          Results.S_HYM := num 4;
          Results.quantum_ledger_hash := "99BFEC29C815EC4EC1EE";
          Results.verified := true |},
   [(DampingInequality, true); (Constraint, true);
    (MassGapPositivity, true); (SobolevBound, true)]).
Proof. vm_compute. reflexivity. Qed.

Example state_data_sample :
  state_data (S754_finite false 7034924060408389 (-136)) (num 1)
             (S754_finite false 7034924060408398 (-136)) (num 2.4)
  = "F_H:8.08e-26|γ:1.000000|Δ:8.08e-26|K:2.40"%string.
Proof. vm_compute. reflexivity. Qed.

Section Rounding.
Local Open Scope Z_scope.

(** ** Rounding keeps a positive sum positive *)

Lemma digits2_bounds (p : positive) :
  2 ^ (Zpos (digits2_pos p) - 1) <= Zpos p < 2 ^ Zpos (digits2_pos p).
Proof.
  induction p as [p IH | p IH |]; cbn [digits2_pos].
  - rewrite Pos2Z.inj_succ.
    replace (Z.succ (Zpos (digits2_pos p)) - 1) with (Zpos (digits2_pos p) - 1 + 1) by lia.
    rewrite Z.pow_succ_r, Z.pow_add_r by lia. lia.
  - rewrite Pos2Z.inj_succ.
    replace (Z.succ (Zpos (digits2_pos p)) - 1) with (Zpos (digits2_pos p) - 1 + 1) by lia.
    rewrite Z.pow_succ_r, Z.pow_add_r by lia. lia.
  - cbn. lia.
Qed.

Lemma digits2_mono (p q : positive) :
  (p <= q)%positive -> Zpos (digits2_pos p) <= Zpos (digits2_pos q).
Proof.
  intros H. pose proof (digits2_bounds p) as [Hp _]. pose proof (digits2_bounds q) as [_ Hq].
  assert (L : 2 ^ (Zpos (digits2_pos p) - 1) < 2 ^ Zpos (digits2_pos q)) by lia.
  apply Z.pow_lt_mono_r_iff in L; lia.
Qed.

Lemma digits2_iter_xO (p d : positive) :
  Zpos (digits2_pos (Pos.iter xO p d)) = Zpos (digits2_pos p) + Zpos d.
Proof.
  induction d as [|d IH] using Pos.peano_ind.
  - cbn. lia.
  - rewrite Pos.iter_succ. cbn [digits2_pos]. lia.
Qed.

Lemma shr_m_shr_1 (mrs : shr_record) :
  0 <= shr_m mrs -> shr_m (shr_1 mrs) = shr_m mrs / 2.
Proof.
  destruct mrs as [m r s]. cbn [shr_m]. intros H.
  destruct m as [|[p|p|]|p]; cbn [shr_1 shr_m]; try lia.
  - reflexivity.
  - apply Z.div_unique with 1; lia.
  - apply Z.div_unique with 0; lia.
  - reflexivity.
Qed.

Lemma pow2_xO (n : positive) : 2 ^ Zpos n~0 = 2 ^ Zpos n * 2 ^ Zpos n.
Proof.
  replace (Zpos n~0) with (Zpos n + Zpos n) by lia. apply Z.pow_add_r; lia.
Qed.

Lemma pow2_xI (n : positive) : 2 ^ Zpos n~1 = 2 * (2 ^ Zpos n * 2 ^ Zpos n).
Proof.
  replace (Zpos n~1) with (Z.succ (Zpos n + Zpos n)) by lia.
  rewrite Z.pow_succ_r, Z.pow_add_r by lia. reflexivity.
Qed.

Lemma shr_m_iter (n : positive) (mrs : shr_record) :
  0 <= shr_m mrs -> shr_m (SpecFloat.iter_pos shr_1 n mrs) = shr_m mrs / 2 ^ Zpos n.
Proof.
  revert mrs. induction n as [n IH | n IH |]; intros mrs H; cbn [SpecFloat.iter_pos].
  - assert (H1 : 0 <= shr_m (shr_1 mrs)) by (rewrite shr_m_shr_1 by lia; apply Z.div_pos; lia).
    assert (H2 : 0 <= shr_m (SpecFloat.iter_pos shr_1 n (shr_1 mrs)))
      by (rewrite IH by lia; apply Z.div_pos; lia).
    rewrite IH, IH, shr_m_shr_1 by lia.
    rewrite !Z.div_div by lia. rewrite pow2_xI. f_equal; lia.
  - assert (H2 : 0 <= shr_m (SpecFloat.iter_pos shr_1 n mrs))
      by (rewrite IH by lia; apply Z.div_pos; lia).
    rewrite IH, IH by lia. rewrite Z.div_div by lia. rewrite pow2_xO. reflexivity.
  - rewrite shr_m_shr_1 by lia. reflexivity.
Qed.

Lemma fexp_bounds (d : Z) : emin <= fexp d /\ (emin < d -> fexp d < d).
Proof. unfold SpecFloat.fexp, SpecFloat.emin, B64.prec, B64.emax. lia. Qed.

(** One shift of a positive mantissa that is not below the least exponent
    leaves a positive mantissa, at an exponent that is not below it either. *)
Lemma shr_fexp_positive (p : positive) (e : Z) (l : location) :
  emin < Zpos (digits2_pos p) + e ->
  0 < shr_m (fst (shr_fexp B64.prec B64.emax (Zpos p) e l))
  /\ emin <= snd (shr_fexp B64.prec B64.emax (Zpos p) e l).
Proof.
  intros H. unfold shr_fexp. cbn [Zdigits2].
  destruct (fexp_bounds (Zpos (digits2_pos p) + e)) as [Hmin Hlt]. specialize (Hlt H).
  assert (Hm : shr_m (shr_record_of_loc (Zpos p) l) = Zpos p)
    by (destruct l as [|[| |]]; reflexivity).
  unfold shr.
  destruct (fexp (Zpos (digits2_pos p) + e) - e) as [|n|n] eqn:En; cbn [fst snd].
  - rewrite Hm. lia.
  - rewrite shr_m_iter by (rewrite Hm; lia). rewrite Hm. split; [|lia].
    apply Z.div_str_pos. split; [apply Z.pow_pos_nonneg; lia|].
    pose proof (digits2_bounds p) as [Hp _].
    apply Z.le_trans with (2 ^ (Zpos (digits2_pos p) - 1)); [|exact Hp].
    apply Z.pow_le_mono_r; lia.
  - rewrite Hm. lia.
Qed.

Lemma round_nearest_even_positive (m : Z) (l : location) :
  0 < m -> 0 < round_nearest_even m l.
Proof.
  intros H. destruct l as [|[| |]]; cbn [round_nearest_even]; try lia.
  destruct (Z.even m); lia.
Qed.

Lemma binary_round_aux_positive (p : positive) (e : Z) (l : location) :
  emin < Zpos (digits2_pos p) + e ->
  above_zero (binary_round_aux B64.prec B64.emax false (Zpos p) e l).
Proof.
  intros H. unfold binary_round_aux.
  destruct (shr_fexp_positive p e l H) as [Hm He].
  destruct (shr_fexp B64.prec B64.emax (Zpos p) e l) as [mrs' e']. cbn [fst snd] in Hm, He.
  pose proof (round_nearest_even_positive (shr_m mrs') (loc_of_shr_record mrs') Hm) as Hr.
  destruct (round_nearest_even (shr_m mrs') (loc_of_shr_record mrs')) as [|q|q]; try lia.
  assert (Hq : emin < Zpos (digits2_pos q) + e') by lia.
  destruct (shr_fexp_positive q e' loc_Exact Hq) as [Hm' _].
  destruct (shr_fexp B64.prec B64.emax (Zpos q) e' loc_Exact) as [mrs'' e'']. cbn [fst] in Hm'.
  destruct (shr_m mrs'') as [|m|m]; try lia.
  destruct (e'' <=? B64.emax - B64.prec); exact I.
Qed.

Lemma shl_align_digits (p : positive) (e e' : Z) :
  Zpos (digits2_pos (fst (shl_align p e e'))) + snd (shl_align p e e')
  = Zpos (digits2_pos p) + e.
Proof.
  unfold shl_align. destruct (e' - e) as [|d|d] eqn:E; cbn [fst snd]; try reflexivity.
  rewrite digits2_iter_xO. lia.
Qed.

Lemma shl_align_le (p : positive) (e e' : Z) :
  e' <= e -> snd (shl_align p e e') = e' /\ (p <= fst (shl_align p e e'))%positive.
Proof.
  intros H. unfold shl_align. destruct (e' - e) as [|d|d] eqn:E; cbn [fst snd]; try lia.
  split; [reflexivity|].
  pose proof (digits2_iter_xO p d) as Hd.
  clear E H. induction d as [|d IH] using Pos.peano_ind.
  - cbn. lia.
  - rewrite Pos.iter_succ. pose proof (digits2_iter_xO p d). lia.
Qed.

Lemma binary_round_positive (p : positive) (e : Z) :
  emin < Zpos (digits2_pos p) + e ->
  above_zero (binary_round B64.prec B64.emax false p e).
Proof.
  intros H. unfold binary_round.
  pose proof (shl_align_digits p e (fexp (Zpos (digits2_pos p) + e))) as Hd.
  destruct (shl_align p e (fexp (Zpos (digits2_pos p) + e))) as [mz ez]. cbn [fst snd] in Hd.
  apply binary_round_aux_positive. lia.
Qed.

(** The sum of two positive finite floats, one of which is a binary64
    number that is not below the least exponent, is above zero. *)
Lemma add_positive (mx : positive) (ex : Z) (my : positive) (ey : Z) :
  emin < Zpos (digits2_pos mx) + ex ->
  above_zero (B64.add (S754_finite false mx ex) (S754_finite false my ey)).
Proof.
  intros H. unfold B64.add, SFadd. cbn [cond_Zopp].
  set (ez := Z.min ex ey).
  destruct (shl_align_le mx ex ez ltac:(lia)) as [Hsx Hlx].
  pose proof (shl_align_digits mx ex ez) as Hdx. rewrite Hsx in Hdx.
  set (a := fst (shl_align mx ex ez)) in *.
  set (b := fst (shl_align my ey ez)).
  change (Zpos a + Zpos b) with (Zpos (a + b)). cbn [binary_normalize].
  apply binary_round_positive.
  pose proof (digits2_mono a (a + b) ltac:(lia)). lia.
Qed.

Lemma above_zero_ltb (x : float) : above_zero x -> B64.ltb (num 0) x = true.
Proof. destruct x as [s|[|]| |[|] m e]; cbn; intros H; try contradiction; reflexivity. Qed.

Lemma epsilon_plus_nonnegative (t : float) :
  B64.leb (num 0) t = true -> above_zero (B64.add EPSILON t).
Proof.
  destruct t as [s|[|]| |[|] m e]; intros H; try (vm_compute in H; discriminate H);
    try (vm_compute; exact I).
  replace EPSILON with (S754_finite false 4903985730770844 (-185))
    by (vm_compute; reflexivity).
  apply add_positive. vm_compute. reflexivity.
Qed.

(** ** Rounding keeps the sign *)

Lemma shr_fexp_nonnegative (m e : Z) (l : location) :
  0 <= m -> 0 <= shr_m (fst (shr_fexp B64.prec B64.emax m e l)).
Proof.
  intros H. unfold shr_fexp, shr.
  assert (Hm : shr_m (shr_record_of_loc m l) = m)
    by (destruct l as [|[| |]]; reflexivity).
  destruct (fexp (Zdigits2 m + e) - e) as [|n|n]; cbn [fst].
  - lia.
  - rewrite shr_m_iter by lia. rewrite Hm. apply Z.div_pos; lia.
  - lia.
Qed.

Lemma round_nearest_even_nonnegative (m : Z) (l : location) :
  0 <= m -> 0 <= round_nearest_even m l.
Proof.
  intros H. destruct l as [|[| |]]; cbn [round_nearest_even]; try lia.
  destruct (Z.even m); lia.
Qed.

Lemma binary_round_aux_nonnegative (m e : Z) (l : location) :
  0 <= m -> nonnegative (binary_round_aux B64.prec B64.emax false m e l).
Proof.
  intros H. unfold binary_round_aux.
  pose proof (shr_fexp_nonnegative m e l H) as H1.
  destruct (shr_fexp B64.prec B64.emax m e l) as [mrs' e']. cbn [fst] in H1.
  pose proof (round_nearest_even_nonnegative (shr_m mrs') (loc_of_shr_record mrs') H1) as H2.
  pose proof (shr_fexp_nonnegative (round_nearest_even (shr_m mrs') (loc_of_shr_record mrs'))
                e' loc_Exact H2) as H3.
  destruct (shr_fexp B64.prec B64.emax
              (round_nearest_even (shr_m mrs') (loc_of_shr_record mrs')) e' loc_Exact)
    as [mrs'' e'']. cbn [fst] in H3.
  destruct (shr_m mrs'') as [|q|q]; try lia.
  - exact I.
  - destruct (e'' <=? B64.emax - B64.prec); exact I.
Qed.

Lemma mul_nonnegative (x y : float) :
  nonnegative x -> positive_finite y -> nonnegative (B64.mul x y).
Proof.
  destruct x as [[|]|[|]| |[|] mx ex]; destruct y as [[|]|[|]| |[|] my ey];
    cbn [nonnegative positive_finite]; intros Hx Hy; try contradiction;
    unfold B64.mul, SFmul; cbn [xorb nonnegative]; try exact I.
  apply binary_round_aux_nonnegative. lia.
Qed.

Lemma div_nonnegative (x y : float) :
  nonnegative x -> positive_finite y -> nonnegative (B64.div x y).
Proof.
  destruct x as [[|]|[|]| |[|] mx ex]; destruct y as [[|]|[|]| |[|] my ey];
    cbn [nonnegative positive_finite]; intros Hx Hy; try contradiction;
    unfold B64.div, SFdiv; cbn [xorb nonnegative]; try exact I.
  unfold SFdiv_core_binary.
  set (m' := match _ with Z0 => Zpos mx | Zpos _ => _ | Zneg _ => 0 end).
  assert (Hm' : 0 <= m').
  { subst m'. destruct (ex - ey - _) as [|s|s]; try lia. apply Z.shiftl_nonneg. lia. }
  pose proof (Z.div_pos m' (Zpos my) Hm' ltac:(lia)) as Hq.
  unfold Z.div in Hq. destruct (Z.div_eucl m' (Zpos my)) as [q r]. cbn [fst] in Hq.
  apply binary_round_aux_nonnegative. exact Hq.
Qed.

Lemma nonnegative_leb (x : float) : nonnegative x -> B64.leb (num 0) x = true.
Proof. destruct x as [[|]|[|]| |[|] m e]; cbn; intros H; try contradiction; reflexivity. Qed.

(** The energy floor is not negative when the C library's power is positive. *)
Lemma floor_nonnegative (p : float) :
  positive_finite p -> nonnegative (B64.div (B64.mul p C) (B64.sqrt L_P)).
Proof.
  intros Hp. apply div_nonnegative; [|vm_compute; exact I].
  destruct p as [[|]|[|]| |[|] mp ep]; try contradiction.
  replace C with (S754_finite false 5029682823036928 (-24)) by (vm_compute; reflexivity).
  unfold B64.mul, SFmul. cbn [xorb]. apply binary_round_aux_nonnegative. lia.
Qed.

End Rounding.

(** ** The gap is positive *)

(** C6. [EPSILON] is a positive float, and whenever the product
    [F_H * gamma] is not negative (and not NaN) the gap that
    [phase_3_mass_gap_solution] returns is strictly positive in binary64:
    neither the rounding of the sum nor an overflow can bring it to zero.
    The line it prints then says [VERIFIED]. *)
Theorem gap_is_strictly_positive
  (rt : Runtime) (self : HardingYangMillsVerifier) (gamma : float) :
  (num 0 <=? F_H self * gamma)%py = true ->
  (num 0 <? EPSILON)%py = true
  /\ fst (phase_3_mass_gap_solution rt self gamma) = inr (EPSILON + F_H self * gamma)%py
  /\ (num 0 <? EPSILON + F_H self * gamma)%py = true
  /\ In (MassGapPositivity, true) (snd (phase_3_mass_gap_solution rt self gamma)).
Proof.
  intros H. pose proof (above_zero_ltb _ (epsilon_plus_nonnegative _ H)) as Hpos.
  rewrite phase_3_eq. cbn [fst snd]. rewrite Hpos.
  split; [vm_compute; reflexivity|].
  split; [reflexivity|]. split; [reflexivity|].
  right. left. reflexivity.
Qed.

Lemma gap_is_strictly_positive_sample :
  (num 0 <? EPSILON)%py = true
  /\ fst (phase_3_mass_gap_solution Sample.runtime sample_self (num 1))
     = inr (EPSILON + F_H sample_self * num 1)%py
  /\ (num 0 <? EPSILON + F_H sample_self * num 1)%py = true
  /\ In (MassGapPositivity, true)
        (snd (phase_3_mass_gap_solution Sample.runtime sample_self (num 1))).
Proof.
  apply (gap_is_strictly_positive Sample.runtime sample_self (num 1)).
  vm_compute. reflexivity.
Defined.

(** C8. In the record a run returns, [verified] is the comparison
    [delta > 0] and [delta] is [EPSILON + F_H * gamma].  It is [True] as soon
    as that product is not negative, and so in every run in which the C
    library's [HBAR**1.5] and the value of the quadrature are positive
    finite floats. *)
Theorem verified_flag_is_delta_positive
  (rt : Runtime) (self : HardingYangMillsVerifier) (results : Results.t) :
  fst (run_complete_verification rt self) = inr results ->
  Results.verified results = (Results.delta results >? num 0)%py
  /\ Results.delta results
     = (EPSILON + Results.F_H results * Results.gamma results)%py
  /\ ((num 0 <=? Results.F_H results * Results.gamma results)%py = true ->
      Results.verified results = true)
  /\ (fst (__init__ rt) = inr self ->
      positive_finite (libm_pow rt HBAR (num 1.5)) ->
      positive_finite (quadrature_value rt) ->
      Results.verified results = true).
Proof.
  intros Hrun.
  assert (Hfin : B64.is_inf (libm_pow rt HBAR (num 1.5)) = false).
  { destruct (B64.is_inf (libm_pow rt HBAR (num 1.5))) eqn:E; [|reflexivity].
    unfold run_complete_verification, phase_1_regulator_energy_floor in Hrun.
    rewrite HBAR_pow, E in Hrun. discriminate Hrun. }
  rewrite (run_complete_verification_eq rt self Hfin) in Hrun.
  cbn [fst] in Hrun.
  apply (f_equal (fun r => match r with inr x => x | inl _ => results end)) in Hrun.
  cbv beta iota in Hrun. subst results.
  cbn [Results.verified Results.delta Results.F_H Results.gamma].
  assert (Hnn : (num 0 <=? F_H self * quadrature_value rt)%py = true ->
                (EPSILON + F_H self * quadrature_value rt >? num 0)%py = true).
  { intros H. apply above_zero_ltb, epsilon_plus_nonnegative, H. }
  split; [reflexivity|]. split; [reflexivity|]. split; [exact Hnn|].
  intros Hinit Hp Hg. apply Hnn, nonnegative_leb.
  destruct (init_success rt self Hinit) as (_ & _ & -> & _).
  apply mul_nonnegative; [apply floor_nonnegative, Hp|exact Hg].
Qed.

Lemma verified_flag_is_delta_positive_sample :
  exists results : Results.t,
    fst (main Sample.runtime) = inr results
    /\ Results.verified results = (Results.delta results >? num 0)%py
    /\ Results.delta results
       = (EPSILON + Results.F_H results * Results.gamma results)%py
    /\ Results.verified results = true.
Proof.
  eexists. split; [vm_compute; reflexivity|].
  destruct (verified_flag_is_delta_positive Sample.runtime sample_self
              {| Results.F_H := S754_finite false 7034924060408389 (-136);
                 Results.gamma := num 1;
                 Results.delta := S754_finite false 7034924060408398 (-136);
                 Results.K := num 2.4;
                 Results.S_HYM := num 4;
                 Results.quantum_ledger_hash := "99BFEC29C815EC4EC1EE";
                 Results.verified := true |})
    as (Hv & Hd & _ & Ht).
  - vm_compute. reflexivity.
  - split; [exact Hv|]. split; [exact Hd|].
    apply Ht; vm_compute; [reflexivity|exact I|exact I].
Defined.

(** ** The field function and its integral *)

Section Integral.
Local Open Scope R_scope.

Lemma theta_R_formula (x y : R) :
  theta_R x y
  = 1 + 0.1 * sin (2 * PI * (x + y)) + 0.05 * cos (4 * PI * x) * sin (4 * PI * y).
Proof.
  unfold theta_R, topological_density_theta_A.
  cbn [lit plus times np_sin np_cos np_pi real_arith].
  replace (Q2R 1.0) with 1 by (unfold Q2R; cbn; lra).
  replace (Q2R 0.1) with 0.1 by (unfold Q2R; cbn; lra).
  replace (Q2R 0.05) with 0.05 by (unfold Q2R; cbn; lra).
  replace (Q2R 2) with 2 by (unfold Q2R; cbn; lra).
  replace (Q2R 4) with 4 by (unfold Q2R; cbn; lra).
  reflexivity.
Qed.

(** Derivatives of the two shapes the antiderivative is made of. *)
Lemma derivable_pt_lim_affine (k c s : R) :
  derivable_pt_lim (fun u => k * u + c) s k.
Proof.
  cut (derivable_pt_lim (fun u => k * u + c) s (k * 1 + 0)).
  { intros H. replace (k * 1 + 0) with k in H by ring. exact H. }
  exact (derivable_pt_lim_plus (mult_real_fct k id) (fct_cte c) s (k * 1) 0
           (derivable_pt_lim_scal id k s 1 (derivable_pt_lim_id s))
           (derivable_pt_lim_const c s)).
Qed.

Lemma derivable_pt_lim_sin_affine (a k c s : R) :
  derivable_pt_lim (fun u => a * sin (k * u + c)) s (a * (cos (k * s + c) * k)).
Proof.
  exact (derivable_pt_lim_scal (comp sin (fun u => k * u + c)) a s
           (cos (k * s + c) * k)
           (derivable_pt_lim_comp (fun u => k * u + c) sin s k (cos (k * s + c))
              (derivable_pt_lim_affine k c s)
              (derivable_pt_lim_sin (k * s + c)))).
Qed.

Lemma derivable_pt_lim_cos_affine (a k c s : R) :
  derivable_pt_lim (fun u => a * cos (k * u + c)) s (a * (- sin (k * s + c) * k)).
Proof.
  exact (derivable_pt_lim_scal (comp cos (fun u => k * u + c)) a s
           (- sin (k * s + c) * k)
           (derivable_pt_lim_comp (fun u => k * u + c) cos s k (- sin (k * s + c))
              (derivable_pt_lim_affine k c s)
              (derivable_pt_lim_cos (k * s + c)))).
Qed.

Lemma theta_primitive_derivative (y x : R) :
  derivable_pt_lim (theta_primitive y) x (theta_R x y).
Proof.
  pose proof PI_neq0 as Hpi.
  replace (theta_R x y) with
    (1 + (- (0.1 / (2 * PI))) * (- sin (2 * PI * x + 2 * PI * y) * (2 * PI))
       + (0.05 * sin (4 * PI * y) / (4 * PI)) * (cos (4 * PI * x + 0) * (4 * PI))).
  - exact (derivable_pt_lim_plus _ _ x _ _
             (derivable_pt_lim_plus id _ x 1 _
                (derivable_pt_lim_id x)
                (derivable_pt_lim_cos_affine (- (0.1 / (2 * PI))) (2 * PI) (2 * PI * y) x))
             (derivable_pt_lim_sin_affine (0.05 * sin (4 * PI * y) / (4 * PI)) (4 * PI) 0 x)).
  - rewrite theta_R_formula.
    replace (2 * PI * (x + y)) with (2 * PI * x + 2 * PI * y) by ring.
    replace (4 * PI * x + 0) with (4 * PI * x) by ring.
    field. exact Hpi.
Qed.

Lemma theta_primitive_derivable (y : R) : derivable (theta_primitive y).
Proof.
  intros x. exists (theta_R x y). apply theta_primitive_derivative.
Defined.

Lemma theta_R_continuous (y : R) : continuity (fun x => theta_R x y).
Proof.
  assert (E : (fun x => theta_R x y)
              = (fun x => 1 + 0.1 * sin (2 * PI * x + 2 * PI * y)
                          + (0.05 * sin (4 * PI * y)) * cos (4 * PI * x + 0))).
  { apply FunctionalExtensionality.functional_extensionality. intros x.
    rewrite theta_R_formula.
    replace (2 * PI * (x + y)) with (2 * PI * x + 2 * PI * y) by ring.
    replace (4 * PI * x + 0) with (4 * PI * x) by ring. ring. }
  rewrite E. apply derivable_continuous. intros x.
  eexists.
  exact (derivable_pt_lim_plus _ _ x _ _
           (derivable_pt_lim_plus (fct_cte 1) _ x 0 _
              (derivable_pt_lim_const 1 x)
              (derivable_pt_lim_sin_affine 0.1 (2 * PI) (2 * PI * y) x))
           (derivable_pt_lim_cos_affine (0.05 * sin (4 * PI * y)) (4 * PI) 0 x)).
Qed.

Lemma theta_primitive_C1 (y : R) :
  continuity (derive (theta_primitive y) (theta_primitive_derivable y)).
Proof. exact (theta_R_continuous y). Qed.

Lemma theta_primitive_increment (y : R) :
  theta_primitive y 1 - theta_primitive y 0 = 1.
Proof.
  unfold theta_primitive.
  replace (2 * PI * 1 + 2 * PI * y) with (2 * PI * y + 2 * PI) by ring.
  replace (2 * PI * 0 + 2 * PI * y) with (2 * PI * y) by ring.
  replace (4 * PI * 1 + 0) with (2 * (2 * PI)) by ring.
  replace (4 * PI * 0 + 0) with 0 by ring.
  rewrite cos_plus, cos_2PI, sin_2PI, sin_2a, sin_2PI, sin_0. field. exact PI_neq0.
Qed.

(** The inner integral, whatever the proof of integrability. *)
Lemma theta_inner_integral (y : R)
  (pr : Riemann_integrable (fun x => theta_R x y) 0 1) : RiemannInt pr = 1.
Proof.
  pose (G := mkC1 (theta_primitive_C1 y)).
  rewrite <- (theta_primitive_increment y).
  exact (FTC_Riemann G pr).
Qed.

Lemma theta_inner_integrable (y : R) : Riemann_integrable (fun x => theta_R x y) 0 1.
Proof.
  apply continuity_implies_RiemannInt; [lra|].
  intros x _. apply theta_R_continuous.
Qed.

Lemma is_integral_unique (f : R -> R) (a b u v : R) :
  is_integral f a b u -> is_integral f a b v -> u = v.
Proof.
  intros [pu <-] [pv <-]. apply RiemannInt_P5.
Qed.

Lemma is_integral_one : is_integral (fun _ => 1) 0 1 1.
Proof.
  exists (RiemannInt_P14 0 1 1).
  etransitivity; [exact (RiemannInt_P15 (RiemannInt_P14 0 1 1))|ring].
Qed.

(** The integral of the field function over the unit square is 1: the
    sinusoidal term and the cross term integrate to zero over full periods. *)
Lemma theta_double_integral : is_double_integral theta_R 0 1 0 1 1.
Proof.
  exists (fun _ => 1). split.
  - intros x _. exists (theta_inner_integrable x). apply theta_inner_integral.
  - exact is_integral_one.
Qed.

Lemma theta_double_integral_unique (v : R) :
  is_double_integral theta_R 0 1 0 1 v -> v = 1.
Proof.
  intros (inner & Hin & [pr <-]).
  destruct is_integral_one as [pr1 <-].
  apply RiemannInt_P18; [lra|].
  intros x Hx. destruct (Hin x ltac:(lra)) as [pri <-].
  apply theta_inner_integral.
Qed.

End Integral.

(** C1. The field function is the expression
    [1 + 0.1*sin(2*pi*(x+y)) + 0.05*cos(4*pi*x)*sin(4*pi*y)]: read in the real
    numbers it is that real number, at every point and so on the unit square;
    read in binary64 it is that expression evaluated with Python's
    precedence, each operation rounded, on the sine, cosine and pi of the
    runtime.  It is a function of its two arguments: it prints nothing,
    raises nothing, reads no state. *)
Theorem field_function_formula :
  (forall x y : R,
      theta_R x y
      = (1 + 0.1 * sin (2 * PI * (x + y)) + 0.05 * cos (4 * PI * x) * sin (4 * PI * y))%R)
  /\ (forall (rt : Runtime) (x y : float),
        theta rt x y
        = (num 1.0 + num 0.1 * libm_sin rt (num 2 * num 3.141592653589793 * (x + y))
           + num 0.05 * libm_cos rt (num 4 * num 3.141592653589793 * x)
             * libm_sin rt (num 4 * num 3.141592653589793 * y))%py).
Proof.
  split.
  - exact theta_R_formula.
  - intros rt x y. reflexivity.
Qed.

Lemma quadrature_value_sample : quadrature_value Sample.runtime = num 1.
Proof. vm_compute. reflexivity. Qed.

Lemma to_R_one : B64.to_R (num 1) = 1%R.
Proof.
  rewrite num_one. unfold B64.to_R. cbn [cond_Zopp].
  replace (2 ^ 52)%Z with 4503599627370496%Z by reflexivity. field.
Qed.

Lemma quadrature_within_sample : quadrature_within Sample.runtime 0.
Proof.
  unfold quadrature_within. rewrite quadrature_value_sample. split.
  - reflexivity.
  - intros v Hv. rewrite (theta_double_integral_unique v Hv), to_R_one.
    replace (1 - 1)%R with 0%R by ring. rewrite Rabs_R0. lra.
Qed.

(** C2. The integral of the field function over the unit square is exactly
    1, the sinusoidal term and the cross term integrating to zero; so the
    gamma that [phase_2_damping_coefficient] returns, which is the value of
    the quadrature, is within 1e-6 of 1.0 as soon as the quadrature is within
    a tolerance of at most 1e-6 of the integral. *)
Theorem gamma_is_one_within_tolerance
  (rt : Runtime) (self : HardingYangMillsVerifier) (tol : R) :
  (tol <= 1e-6)%R ->
  quadrature_within rt tol ->
  is_double_integral theta_R 0 1 0 1 1
  /\ (forall v : R, is_double_integral theta_R 0 1 0 1 v -> v = 1%R)
  /\ exists gamma : float,
       fst (phase_2_damping_coefficient rt self) = inr gamma
       /\ gamma = fst (dblquad rt (theta rt) (num 0) (num 1) (num 0) (num 1))
       /\ B64.is_finite gamma = true
       /\ (Rabs (B64.to_R gamma - 1) <= 1e-6)%R.
Proof.
  intros Htol [Hfin Hacc].
  split; [exact theta_double_integral|].
  split; [exact theta_double_integral_unique|].
  exists (quadrature_value rt). rewrite phase_2_eq.
  split; [reflexivity|]. split; [reflexivity|]. split; [exact Hfin|].
  apply Rle_trans with tol; [|exact Htol].
  apply Hacc, theta_double_integral.
Qed.

Lemma gamma_is_one_within_tolerance_sample :
  is_double_integral theta_R 0 1 0 1 1
  /\ (forall v : R, is_double_integral theta_R 0 1 0 1 v -> v = 1%R)
  /\ exists gamma : float,
       fst (phase_2_damping_coefficient Sample.runtime sample_self) = inr gamma
       /\ gamma = fst (dblquad Sample.runtime (theta Sample.runtime)
                         (num 0) (num 1) (num 0) (num 1))
       /\ B64.is_finite gamma = true
       /\ (Rabs (B64.to_R gamma - 1) <= 1e-6)%R.
Proof.
  apply (gamma_is_one_within_tolerance Sample.runtime sample_self 0).
  - lra.
  - exact quadrature_within_sample.
Defined.

(* ================================================================== *)
(** * Further properties of the script *)
(* ================================================================== *)

(** ** Multiplication by 1.0 *)

Section MulOne.
Local Open Scope Z_scope.

Lemma pos_mul_pow2_52 (m : positive) :
  (m * 4503599627370496)%positive = Pos.iter xO m 52.
Proof. rewrite Pos.mul_comm. reflexivity. Qed.

(** Shifting out the zeros that a multiplication by 1.0 appended. *)
Lemma shr_52_exact (m : positive) :
  SpecFloat.iter_pos shr_1 52 (Build_shr_record (Zpos (Pos.iter xO m 52)) false false)
  = Build_shr_record (Zpos m) false false.
Proof. reflexivity. Qed.

(** [x * 1.0] is [x] for every binary64 number. *)
Lemma mul_one_r (x : float) :
  valid_binary B64.prec B64.emax x = true -> B64.mul x (num 1) = x.
Proof.
  rewrite num_one.
  destruct x as [[|]|[|]| |s m e]; try reflexivity.
  cbn [valid_binary]. unfold bounded, canonical_mantissa.
  intros H. apply andb_true_iff in H as [Hc Hb].
  apply Z.eqb_eq in Hc. apply Z.leb_le in Hb.
  unfold B64.mul, SFmul. rewrite pos_mul_pow2_52.
  unfold binary_round_aux, shr_fexp. cbn [Zdigits2].
  rewrite digits2_iter_xO.
  replace (Zpos (digits2_pos m) + 52 + (e + -52)) with (Zpos (digits2_pos m) + e) by lia.
  rewrite Hc.
  replace (e - (e + -52)) with 52 by lia.
  cbn [shr_record_of_loc shr]. rewrite shr_52_exact.
  cbn [shr_m loc_of_shr_record round_nearest_even Zdigits2].
  replace (e + -52 + 52) with e by lia.
  rewrite Hc, Z.sub_diag. cbn [shr shr_record_of_loc shr_m].
  apply Z.leb_le in Hb. rewrite Hb.
  destruct s; reflexivity.
Qed.

End MulOne.

(** ** Signs under rounding, negative operands *)

Lemma binary_round_aux_opp (m e : Z) (l : location) :
  binary_round_aux B64.prec B64.emax true m e l
  = SFopp (binary_round_aux B64.prec B64.emax false m e l).
Proof.
  unfold binary_round_aux.
  destruct (shr_fexp B64.prec B64.emax m e l) as [mrs' e'].
  destruct (shr_fexp B64.prec B64.emax _ e' loc_Exact) as [mrs'' e''].
  destruct (shr_m mrs'') as [|q|q]; try reflexivity.
  destruct (e'' <=? B64.emax - B64.prec)%Z; reflexivity.
Qed.

Lemma nonnegative_opp (x : float) : nonnegative x -> nonpositive (SFopp x).
Proof. destruct x as [[|]|[|]| |[|] m e]; cbn; auto. Qed.

Lemma mul_negative (x y : float) :
  positive_finite x -> nonpositive y -> nonpositive (B64.mul x y).
Proof.
  destruct x as [[|]|[|]| |[|] mx ex]; destruct y as [[|]|[|]| |[|] my ey];
    cbn [nonpositive positive_finite]; intros Hx Hy; try contradiction;
    unfold B64.mul, SFmul; cbn [xorb nonpositive]; try exact I.
  rewrite binary_round_aux_opp. apply nonnegative_opp.
  apply binary_round_aux_nonnegative. lia.
Qed.

Lemma div_negative (x y : float) :
  nonpositive x -> positive_finite y -> nonpositive (B64.div x y).
Proof.
  destruct x as [[|]|[|]| |[|] mx ex]; destruct y as [[|]|[|]| |[|] my ey];
    cbn [nonpositive positive_finite]; intros Hx Hy; try contradiction;
    unfold B64.div, SFdiv; cbn [xorb nonpositive]; try exact I.
  pose proof (div_nonnegative (S754_finite false mx ex) (S754_finite false my ey) I I) as H.
  unfold B64.div, SFdiv in H. cbn [xorb] in H.
  destruct (SFdiv_core_binary B64.prec B64.emax (Zpos mx) ex (Zpos my) ey) as [[mz ez] lz].
  rewrite binary_round_aux_opp. apply nonnegative_opp, H.
Qed.

Lemma ltb_nonpositive_positive (x y : float) :
  nonpositive x -> positive_finite y -> B64.ltb x y = true.
Proof.
  destruct x as [[|]|[|]| |[|] mx ex]; destruct y as [[|]|[|]| |[|] my ey];
    cbn; intros Hx Hy; try contradiction; reflexivity.
Qed.

Lemma leb_positive_not_above (k t : float) :
  positive_finite k -> ~ above_zero t -> B64.leb k t = false.
Proof.
  destruct k as [[|]|[|]| |[|] mk ek]; destruct t as [[|]|[|]| |[|] mt et];
    cbn; intros Hk Ht; try contradiction; try reflexivity; exfalso; apply Ht; exact I.
Qed.

Lemma mul_not_above (c t : float) :
  positive_finite c -> ~ above_zero t -> ~ above_zero (B64.mul c t).
Proof.
  intros Hc Ht.
  destruct t as [[|]|[|]| |[|] mt et]; try (exfalso; apply Ht; exact I);
    destruct c as [[|]|[|]| |[|] mc ec]; try contradiction;
    try (cbn; tauto).
  pose proof (mul_negative (S754_finite false mc ec) (S754_finite true mt et) I I) as H.
  destruct (B64.mul (S754_finite false mc ec) (S754_finite true mt et)) as [[|]|[|]| |[|] m e];
    cbn in H |- *; tauto.
Qed.

(** ** The checks and the outcome of the program *)

Lemma run_never_overflows (rt : Runtime) (self : HardingYangMillsVerifier)
  (results : Results.t) :
  fst (run_complete_verification rt self) = inr results ->
  B64.is_inf (libm_pow rt HBAR (num 1.5)) = false.
Proof.
  intros Hrun.
  destruct (B64.is_inf (libm_pow rt HBAR (num 1.5))) eqn:E; [|reflexivity].
  unfold run_complete_verification, phase_1_regulator_energy_floor in Hrun.
  rewrite HBAR_pow, E in Hrun. discriminate Hrun.
Qed.

(** X1. The damping line of [phase_2_damping_coefficient] is the comparison
    [1.0 <= gamma]: the bound [gamma * 1.0**(1/3)] is gamma itself for every
    binary64 gamma, the power being 1.0 and the product by 1.0 exact.  So the
    check fails as soon as the quadrature is one rounding error below 1. *)
Theorem damping_check_is_one_le_gamma (rt : Runtime) (self : HardingYangMillsVerifier) :
  valid_binary B64.prec B64.emax (quadrature_value rt) = true ->
  phase_2_damping_coefficient rt self
  = (inr (quadrature_value rt),
     [(DampingInequality, (num 1 <=? quadrature_value rt)%py)]).
Proof.
  intros H. rewrite phase_2_eq, (mul_one_r _ H).
  replace (num 1.0) with (num 1) by (vm_compute; reflexivity). reflexivity.
Qed.

Lemma damping_check_fails_just_below_one :
  phase_2_damping_coefficient (constant_quadrature (num 0.9999999999999999)) sample_self
  = (inr (num 0.9999999999999999), [(DampingInequality, false)]).
Proof.
  rewrite (damping_check_is_one_le_gamma
             (constant_quadrature (num 0.9999999999999999)) sample_self)
    by (vm_compute; reflexivity).
  vm_compute. reflexivity.
Defined.

(** X2. The program ends in one of two ways.  If the C library's
    [HBAR**1.5] is infinite, [__init__] raises [OverflowError] before any
    check line is printed and the exit status is 1.  Otherwise the run
    returns the record, four check lines are printed and the exit status is
    0.  No other exception can occur. *)
Theorem program_fails_only_by_overflow (rt : Runtime) :
  (B64.is_inf (libm_pow rt HBAR (num 1.5)) = true
   /\ main rt = (inl OverflowError, [])
   /\ exit_code (main rt) = 1%Z)
  \/ (B64.is_inf (libm_pow rt HBAR (num 1.5)) = false
      /\ exists (results : Results.t) (out : stdout),
           main rt = (inr results, out)
           /\ List.length out = 4%nat
           /\ exit_code (main rt) = 0%Z).
Proof.
  destruct (B64.is_inf (libm_pow rt HBAR (num 1.5))) eqn:E.
  - left. split; [reflexivity|].
    assert (Hm : main rt = (inl OverflowError, [])).
    { unfold main. rewrite init_eq, E. reflexivity. }
    rewrite Hm. split; reflexivity.
  - right. split; [reflexivity|].
    assert (Hm : main rt = run_complete_verification rt
                   {| S_H := (libm_pow rt HBAR (num 1.5) * C / B64.sqrt L_P)%py;
                      F_H := (libm_pow rt HBAR (num 1.5) * C / B64.sqrt L_P)%py |}).
    { unfold main. rewrite init_eq, E, bind_ret_l.
      pose proof (run_complete_verification_eq rt
                    {| S_H := (libm_pow rt HBAR (num 1.5) * C / B64.sqrt L_P)%py;
                       F_H := (libm_pow rt HBAR (num 1.5) * C / B64.sqrt L_P)%py |} E) as Hrun.
      cbv zeta in Hrun. rewrite Hrun. reflexivity. }
    pose proof (run_complete_verification_eq rt
                  {| S_H := (libm_pow rt HBAR (num 1.5) * C / B64.sqrt L_P)%py;
                     F_H := (libm_pow rt HBAR (num 1.5) * C / B64.sqrt L_P)%py |} E) as Hrun.
    cbv zeta in Hrun. rewrite Hm, Hrun.
    eexists. eexists. split; [reflexivity|]. split; reflexivity.
Qed.

(** X3. The record a run returns is consistent: [F_H] is the verifier's,
    [gamma] is the value of the quadrature, [K] is 2.4, [S_HYM] is
    [4*gamma + F_H*gamma + delta], the ledger hash is the digest of the
    record's own [F_H], [gamma], [delta] and [K] ([S_HYM] and [verified] do not
    enter it), and the mass-gap line that was printed says what [verified]
    says. *)
Theorem results_record_is_consistent
  (rt : Runtime) (self : HardingYangMillsVerifier) (results : Results.t) (out : stdout) :
  run_complete_verification rt self = (inr results, out) ->
  Results.F_H results = F_H self
  /\ Results.gamma results = quadrature_value rt
  /\ Results.K results = num 2.4
  /\ Results.S_HYM results
     = (num 4 * Results.gamma results + Results.F_H results * Results.gamma results
        + Results.delta results)%py
  /\ Results.quantum_ledger_hash results
     = generate_quantum_ledger_hash (Results.F_H results) (Results.gamma results)
         (Results.delta results) (Results.K results)
  /\ In (MassGapPositivity, Results.verified results) out.
Proof.
  intros Hrun.
  assert (Hfin := run_never_overflows rt self results ltac:(rewrite Hrun; reflexivity)).
  pose proof (run_complete_verification_eq rt self Hfin) as Heq. cbv zeta in Heq.
  rewrite Heq in Hrun.
  pose proof (f_equal snd Hrun) as Hout. cbn [snd] in Hout.
  apply (f_equal fst) in Hrun. cbn [fst] in Hrun.
  apply (f_equal (fun r => match r with inr x => x | inl _ => results end)) in Hrun.
  cbv beta iota in Hrun. subst results out.
  cbn [Results.verified Results.delta Results.F_H Results.gamma Results.K Results.S_HYM
       Results.quantum_ledger_hash].
  assert (EK : (num 0.6 + num 0.8 + num 1.0)%py = num 2.4) by (vm_compute; reflexivity).
  split; [reflexivity|]. split; [reflexivity|]. split; [exact EK|].
  split; [reflexivity|]. split; [reflexivity|].
  right. right. left. reflexivity.
Qed.

Lemma results_record_is_consistent_sample :
  exists (results : Results.t) (out : stdout),
    run_complete_verification Sample.runtime sample_self = (inr results, out)
    /\ Results.F_H results = F_H sample_self
    /\ Results.gamma results = quadrature_value Sample.runtime
    /\ Results.K results = num 2.4
    /\ Results.S_HYM results
       = (num 4 * Results.gamma results + Results.F_H results * Results.gamma results
          + Results.delta results)%py
    /\ Results.quantum_ledger_hash results
       = generate_quantum_ledger_hash (Results.F_H results) (Results.gamma results)
           (Results.delta results) (Results.K results)
    /\ In (MassGapPositivity, Results.verified results) out.
Proof.
  eexists. eexists. split; [vm_compute; reflexivity|].
  apply (results_record_is_consistent Sample.runtime sample_self).
  vm_compute. reflexivity.
Defined.

Lemma positive_finite_nonnegative (x : float) : positive_finite x -> nonnegative x.
Proof. destruct x as [[|]|[|]| |[|] m e]; cbn; auto. Qed.

(** X4. The energy floor [__init__] computes is never negative and never
    NaN when the C library's [HBAR**1.5] is a positive finite float: the
    product by [C] and the quotient by [sqrt(L_P)] keep the sign, whatever
    the rounding, underflow or overflow; and [S_H] is the same number. *)
Theorem energy_floor_is_not_negative (rt : Runtime) (self : HardingYangMillsVerifier) :
  fst (__init__ rt) = inr self ->
  positive_finite (libm_pow rt HBAR (num 1.5)) ->
  nonnegative (F_H self)
  /\ (num 0 <=? F_H self)%py = true
  /\ B64.is_nan (F_H self) = false
  /\ S_H self = F_H self.
Proof.
  intros Hinit Hp.
  destruct (init_success rt self Hinit) as (_ & _ & HF & HS).
  pose proof (floor_nonnegative _ Hp) as Hn. rewrite <- HF in Hn.
  split; [exact Hn|]. split; [apply nonnegative_leb, Hn|]. split; [|exact HS].
  destruct (F_H self) as [[|]|[|]| |[|] m e]; cbn in Hn; try contradiction; reflexivity.
Qed.

Lemma energy_floor_is_not_negative_sample :
  nonnegative (F_H sample_self)
  /\ (num 0 <=? F_H sample_self)%py = true
  /\ B64.is_nan (F_H sample_self) = false
  /\ S_H sample_self = F_H sample_self.
Proof.
  apply (energy_floor_is_not_negative Sample.runtime sample_self).
  - vm_compute. reflexivity.
  - vm_compute. exact I.
Defined.

(** X5. In a run whose energy floor and quadrature value are positive finite
    floats, the constraint line says [True] and the mass-gap line says
    [VERIFIED]: [-S_YM / F_H] is not positive, so gamma is above it, and
    the gap is positive. *)
Theorem positive_operands_pass_constraint_and_gap
  (rt : Runtime) (self : HardingYangMillsVerifier) (results : Results.t) (out : stdout) :
  run_complete_verification rt self = (inr results, out) ->
  positive_finite (F_H self) ->
  positive_finite (quadrature_value rt) ->
  In (Constraint, true) out
  /\ In (MassGapPositivity, true) out
  /\ Results.verified results = true.
Proof.
  intros Hrun HF Hg.
  assert (Hfin := run_never_overflows rt self results ltac:(rewrite Hrun; reflexivity)).
  pose proof (run_complete_verification_eq rt self Hfin) as Heq. cbv zeta in Heq.
  rewrite Heq in Hrun.
  pose proof (f_equal snd Hrun) as Hout. cbn [snd] in Hout.
  apply (f_equal fst) in Hrun. cbn [fst] in Hrun.
  apply (f_equal (fun r => match r with inr x => x | inl _ => results end)) in Hrun.
  cbv beta iota in Hrun. subst results out. cbn [Results.verified].
  assert (Hgap : (EPSILON + F_H self * quadrature_value rt >? num 0)%py = true).
  { apply above_zero_ltb, epsilon_plus_nonnegative, nonnegative_leb.
    apply mul_nonnegative; [apply positive_finite_nonnegative, HF|exact Hg]. }
  assert (Hcon : (quadrature_value rt >? - (num 4 * quadrature_value rt) / F_H self)%py = true).
  { apply ltb_nonpositive_positive; [|exact Hg].
    apply div_negative; [|exact HF].
    apply nonnegative_opp, mul_nonnegative; [vm_compute; exact I|exact Hg]. }
  rewrite Hgap, Hcon.
  split; [right; left; reflexivity|]. split; [right; right; left; reflexivity|reflexivity].
Qed.

Lemma positive_operands_pass_constraint_and_gap_sample :
  In (Constraint, true) (snd (run_complete_verification Sample.runtime sample_self))
  /\ In (MassGapPositivity, true) (snd (run_complete_verification Sample.runtime sample_self))
  /\ Results.verified
       {| Results.F_H := S754_finite false 7034924060408389 (-136);
          Results.gamma := num 1;
          Results.delta := S754_finite false 7034924060408398 (-136);
          Results.K := num 2.4;
          Results.S_HYM := num 4;
          Results.quantum_ledger_hash := "99BFEC29C815EC4EC1EE";
          Results.verified := true |} = true.
Proof.
  apply (positive_operands_pass_constraint_and_gap Sample.runtime sample_self).
  - vm_compute. reflexivity.
  - vm_compute. exact I.
  - vm_compute. exact I.
Defined.

(** X6. The Sobolev check of [phase_4_sobolev_boundary] can pass only for
    an [S_HYM] above zero: on zero, a negative number, minus infinity or NaN
    the line says [FAILED]. *)
Theorem sobolev_check_needs_positive_action
  (self : HardingYangMillsVerifier) (S_HYM delta : float) :
  In (SobolevBound, true) (snd (phase_4_sobolev_boundary self S_HYM delta)) ->
  above_zero S_HYM.
Proof.
  rewrite phase_4_eq. cbn [snd]. intros [H|[]].
  apply (f_equal snd) in H. cbn [snd] in H.
  assert (D : above_zero S_HYM \/ ~ above_zero S_HYM).
  { destruct S_HYM as [[|]|[|]| |[|] m e]; cbn; tauto. }
  destruct D as [D|D]; [exact D|exfalso].
  assert (HC : positive_finite (min3 (num 0.6) (num 0.8) (num 1.0) * num 1.5)%py)
    by (vm_compute; exact I).
  assert (HK : positive_finite (num 0.6 + num 0.8 + num 1.0)%py) by (vm_compute; exact I).
  rewrite (leb_positive_not_above _ _ HK (mul_not_above _ _ HC D)) in H.
  discriminate H.
Qed.

Lemma sobolev_check_needs_positive_action_sample : above_zero (num 4).
Proof.
  apply (sobolev_check_needs_positive_action sample_self (num 4) (num 0)).
  vm_compute. left. reflexivity.
Defined.

Lemma mul_nan_r (x : float) : B64.mul x S754_nan = S754_nan.
Proof. destruct x as [[|]|[|]| |[|] m e]; reflexivity. Qed.

Lemma add_nan_r (x : float) : B64.add x S754_nan = S754_nan.
Proof. destruct x as [[|]|[|]| |[|] m e]; reflexivity. Qed.

Lemma div_nan_l (x : float) : B64.div S754_nan x = S754_nan.
Proof. reflexivity. Qed.

Lemma ltb_nan_r (x : float) : B64.ltb x S754_nan = false.
Proof. destruct x as [[|]|[|]| |[|] m e]; reflexivity. Qed.

Lemma leb_nan_r (x : float) : B64.leb x S754_nan = false.
Proof. destruct x as [[|]|[|]| |[|] m e]; reflexivity. Qed.

(** X7. If the quadrature returns NaN, the run still returns: the gap is
    NaN, [verified] is [False] and the four check lines are negative, yet
    the exit status is 0 and the closing lines of the [__main__] block say
    [PASSED], since they do not read the record's flag. *)
Theorem nan_quadrature_still_passes (rt : Runtime) (self : HardingYangMillsVerifier) :
  fst (__init__ rt) = inr self ->
  quadrature_value rt = S754_nan ->
  exists results : Results.t,
    main rt = (inr results,
               [(DampingInequality, false); (Constraint, false);
                (MassGapPositivity, false); (SobolevBound, false)])
    /\ Results.verified results = false
    /\ B64.is_nan (Results.delta results) = true
    /\ exit_code (main rt) = 0%Z
    /\ nth 1 (closing_report results) EmptyString
       = "✅ HARDING-YANG-MILLS PHASE 5 VERIFICATION: PASSED"%string.
Proof.
  intros Hinit Hq. destruct (init_success rt self Hinit) as (Hfin & Hret & _).
  pose proof (run_complete_verification_eq rt self Hfin) as Hrun. cbv zeta in Hrun.
  assert (Hmain : main rt = run_complete_verification rt self).
  { unfold main. rewrite Hret, bind_ret_l, Hrun. reflexivity. }
  rewrite Hq in Hrun.
  rewrite !mul_nan_r, !add_nan_r in Hrun.
  replace (- S754_nan)%py with S754_nan in Hrun by reflexivity.
  rewrite div_nan_l, !ltb_nan_r, !leb_nan_r in Hrun.
  rewrite Hmain, Hrun. eexists. split; [reflexivity|].
  cbn [Results.verified Results.delta B64.is_nan].
  repeat split.
Qed.

Lemma nan_quadrature_still_passes_sample :
  exists results : Results.t,
    main (constant_quadrature S754_nan)
      = (inr results,
         [(DampingInequality, false); (Constraint, false);
          (MassGapPositivity, false); (SobolevBound, false)])
    /\ Results.verified results = false
    /\ B64.is_nan (Results.delta results) = true
    /\ exit_code (main (constant_quadrature S754_nan)) = 0%Z
    /\ nth 1 (closing_report results) EmptyString
       = "✅ HARDING-YANG-MILLS PHASE 5 VERIFICATION: PASSED"%string.
Proof.
  apply (nan_quadrature_still_passes (constant_quadrature S754_nan) sample_self).
  - vm_compute. reflexivity.
  - vm_compute. reflexivity.
Defined.

Section FieldShape.
Local Open Scope R_scope.

(** X8. The field function stays between 0.85 and 1.15 at every point:
    the sinusoidal term is at most 0.1 and the cross term at most 0.05 in
    absolute value. *)
Theorem field_function_bounds (x y : R) : 0.85 <= theta_R x y <= 1.15.
Proof.
  rewrite theta_R_formula.
  pose proof (SIN_bound (2 * PI * (x + y))) as Hs.
  pose proof (COS_bound (4 * PI * x)) as Hc.
  pose proof (SIN_bound (4 * PI * y)) as Hs'.
  assert (Hp : -1 <= cos (4 * PI * x) * sin (4 * PI * y) <= 1) by nra.
  lra.
Qed.

Lemma sin_shift (a : R) : sin (a + 2 * PI) = sin a.
Proof. rewrite sin_plus, cos_2PI, sin_2PI. ring. Qed.

Lemma cos_shift (a : R) : cos (a + 2 * PI) = cos a.
Proof. rewrite cos_plus, cos_2PI, sin_2PI. ring. Qed.

(** X9. The field function has period 1 in each argument, so the unit
    square covers whole periods of both terms. *)
Theorem field_function_periodic (x y : R) :
  theta_R (x + 1) y = theta_R x y /\ theta_R x (y + 1) = theta_R x y.
Proof.
  rewrite !theta_R_formula. split.
  - replace (2 * PI * (x + 1 + y)) with (2 * PI * (x + y) + 2 * PI) by ring.
    replace (4 * PI * (x + 1)) with (4 * PI * x + 2 * PI + 2 * PI) by ring.
    rewrite sin_shift, !cos_shift. reflexivity.
  - replace (2 * PI * (x + (y + 1))) with (2 * PI * (x + y) + 2 * PI) by ring.
    replace (4 * PI * (y + 1)) with (4 * PI * y + 2 * PI + 2 * PI) by ring.
    rewrite !sin_shift. reflexivity.
Qed.

End FieldShape.

(** ** The integral in the other order *)

Section OtherOrder.
Local Open Scope R_scope.

Lemma theta_primitive_y_derivative (x y : R) :
  derivable_pt_lim (theta_primitive_y x) y (theta_R x y).
Proof.
  pose proof PI_neq0 as Hpi.
  replace (theta_R x y) with
    (1 + (- (0.1 / (2 * PI))) * (- sin (2 * PI * y + 2 * PI * x) * (2 * PI))
       + (- (0.05 * cos (4 * PI * x) / (4 * PI))) * (- sin (4 * PI * y + 0) * (4 * PI))).
  - exact (derivable_pt_lim_plus _ _ y _ _
             (derivable_pt_lim_plus id _ y 1 _
                (derivable_pt_lim_id y)
                (derivable_pt_lim_cos_affine (- (0.1 / (2 * PI))) (2 * PI) (2 * PI * x) y))
             (derivable_pt_lim_cos_affine (- (0.05 * cos (4 * PI * x) / (4 * PI))) (4 * PI) 0 y)).
  - rewrite theta_R_formula.
    replace (2 * PI * (x + y)) with (2 * PI * y + 2 * PI * x) by ring.
    replace (4 * PI * y + 0) with (4 * PI * y) by ring.
    field. exact Hpi.
Qed.

Lemma theta_primitive_y_derivable (x : R) : derivable (theta_primitive_y x).
Proof.
  intros y. exists (theta_R x y). apply theta_primitive_y_derivative.
Defined.

Lemma theta_R_continuous_y (x : R) : continuity (fun y => theta_R x y).
Proof.
  assert (E : (fun y => theta_R x y)
              = (fun y => 1 + 0.1 * sin (2 * PI * y + 2 * PI * x)
                          + (0.05 * cos (4 * PI * x)) * sin (4 * PI * y + 0))).
  { apply FunctionalExtensionality.functional_extensionality. intros y.
    rewrite theta_R_formula.
    replace (2 * PI * (x + y)) with (2 * PI * y + 2 * PI * x) by ring.
    replace (4 * PI * y + 0) with (4 * PI * y) by ring. ring. }
  rewrite E. apply derivable_continuous. intros y.
  eexists.
  exact (derivable_pt_lim_plus _ _ y _ _
           (derivable_pt_lim_plus (fct_cte 1) _ y 0 _
              (derivable_pt_lim_const 1 y)
              (derivable_pt_lim_sin_affine 0.1 (2 * PI) (2 * PI * x) y))
           (derivable_pt_lim_sin_affine (0.05 * cos (4 * PI * x)) (4 * PI) 0 y)).
Qed.

Lemma theta_primitive_y_C1 (x : R) :
  continuity (derive (theta_primitive_y x) (theta_primitive_y_derivable x)).
Proof. exact (theta_R_continuous_y x). Qed.

Lemma theta_primitive_y_increment (x : R) :
  theta_primitive_y x 1 - theta_primitive_y x 0 = 1.
Proof.
  unfold theta_primitive_y.
  replace (2 * PI * 1 + 2 * PI * x) with (2 * PI * x + 2 * PI) by ring.
  replace (2 * PI * 0 + 2 * PI * x) with (2 * PI * x) by ring.
  replace (4 * PI * 1 + 0) with (0 + 2 * PI + 2 * PI) by ring.
  replace (4 * PI * 0 + 0) with 0 by ring.
  rewrite !cos_shift. field. exact PI_neq0.
Qed.

Lemma theta_inner_integral_y (x : R)
  (pr : Riemann_integrable (fun y => theta_R x y) 0 1) : RiemannInt pr = 1.
Proof.
  pose (G := mkC1 (theta_primitive_y_C1 x)).
  rewrite <- (theta_primitive_y_increment x).
  exact (FTC_Riemann G pr).
Qed.

Lemma theta_inner_integrable_y (x : R) : Riemann_integrable (fun y => theta_R x y) 0 1.
Proof.
  apply continuity_implies_RiemannInt; [lra|].
  intros y _. apply theta_R_continuous_y.
Qed.

(** X10. [dblquad] calls [func(y, x)], so the script's [x] is the inner
    variable of the quadrature.  The convention does not matter for this
    integrand: the iterated integral over the unit square is 1 in either
    order, and it is the only value. *)
Theorem integral_is_one_in_either_order :
  is_double_integral theta_R 0 1 0 1 1
  /\ is_double_integral (fun y x => theta_R x y) 0 1 0 1 1
  /\ (forall v : R, is_double_integral (fun y x => theta_R x y) 0 1 0 1 v -> v = 1).
Proof.
  split; [exact theta_double_integral|]. split.
  - exists (fun _ => 1). split.
    + intros x _. exists (theta_inner_integrable_y x). apply theta_inner_integral_y.
    + exact is_integral_one.
  - intros v (inner & Hin & [pr <-]).
    destruct is_integral_one as [pr1 <-].
    apply RiemannInt_P18; [lra|].
    intros x Hx. destruct (Hin x ltac:(lra)) as [pri <-].
    apply theta_inner_integral_y.
Qed.

End OtherOrder.
